(** * arthvm/image: the converter of [main.go], embedded and verified

    [main.go] converts one raster image between PNG and JPEG and may put a
    border (padding) around it.  This development embeds the program
    function by function and proves what its specification says about it.

    - Go's [int] is a 64-bit integer: [Z] with the wrap-around written out
      ([GoInt]).
    - Go's [string] is a byte string: [string], a list of [ascii] bytes.
    - A function that returns [(T, error)] returns a [Res T]: a value, an
      error, or a run-time panic (an index out of range, an allocation that
      the [image] package refuses).
    - The file system and the table of open files are an explicit [World];
      the functions that do I/O are state transformers over it.
    - The packages of Go's library that the program calls ([strings],
      [strconv], [regexp], [path/filepath], [image], [image/color],
      [image/draw], [os]) are modelled after their sources; the codecs
      ([png.Decode], [jpeg.Decode], [png.Encode] and the body of
      [jpeg.Encode]) and the table behind [unicode.ToLower] are section
      variables. *)

From Stdlib Require Import ZArith List String Ascii Strings.Byte Bool Lia.
From stdpp Require Import base gmap strings list.

Local Open Scope string_scope.
Local Open Scope Z_scope.

(** ** Go's [int] *)

Module GoInt.

Definition minInt : Z := - 2 ^ 63.
Definition maxInt : Z := 2 ^ 63 - 1.

(** The value an [int] holds after an operation whose exact result is [x]. *)
Definition wrap (x : Z) : Z := (x + 2 ^ 63) mod 2 ^ 64 - 2 ^ 63.

Definition add (a b : Z) : Z := wrap (a + b).
Definition sub (a b : Z) : Z := wrap (a - b).

End GoInt.

(** ** Errors and results *)

Inductive numErr : Type :=
| ErrSyntax   (* strconv.ErrSyntax *)
| ErrRange.   (* strconv.ErrRange *)

Inductive errno : Type :=
| ENOENT      (* no such file or directory *)
| EEXIST.     (* file exists *)

Inductive error : Type :=
| NumError (func : string) (num : string) (err : numErr)  (* *strconv.NumError *)
| Errorf (msg : string)                                   (* fmt.Errorf(msg) *)
| ErrorfW (msg : string) (cause : error)                  (* fmt.Errorf(msg + ": %w", cause) *)
| PathError (op : string) (path : string) (err : errno)   (* *fs.PathError *)
| CodecError (pkg : string) (msg : string).               (* an error of image/png or image/jpeg *)

Inductive Res (A : Type) : Type :=
| Ret (a : A)
| Fail (e : error)
| Panic (msg : string).

Arguments Ret {A} a.
Arguments Fail {A} e.
Arguments Panic {A} msg.

Definition bindR {A B : Type} (r : Res A) (k : A -> Res B) : Res B :=
  match r with
  | Ret a => k a
  | Fail e => Fail e
  | Panic m => Panic m
  end.

Declare Scope res_scope.
Delimit Scope res_scope with res.
Notation "'let*' x ':=' r 'in' k" := (bindR r (fun x => k))
  (at level 10, x name, r at level 100, k at level 200) : res_scope.

(** [v, err := f(...); if err != nil { return nil, fmt.Errorf(msg+": %w", err) }] *)
Definition wrapErr {A : Type} (msg : string) (r : Res A) : Res A :=
  match r with
  | Fail e => Fail (ErrorfW msg e)
  | other => other
  end.

(** [xs[i]]: a panic when [i] is out of range. *)
Definition index {A : Type} (xs : list A) (i : nat) : Res A :=
  match xs !! i with
  | Some x => Ret x
  | None => Panic "runtime error: index out of range"
  end.

(** ** Package [strings] *)

Definition byteval (c : ascii) : Z := Z.of_N (N_of_ascii c).

Definition isUpperByte (c : ascii) : bool := (65 <=? byteval c) && (byteval c <=? 90).

Definition lowerByte (c : ascii) : ascii :=
  if isUpperByte c then ascii_of_N (N_of_ascii c + 32) else c.

Fixpoint isASCII (s : string) : bool :=
  match s with
  | EmptyString => true
  | String c rest => (byteval c <? 128) && isASCII rest
  end.

Fixpoint lowerASCII (s : string) : string :=
  match s with
  | EmptyString => EmptyString
  | String c rest => String (lowerByte c) (lowerASCII rest)
  end.

(** [strings.HasPrefix] and [strings.TrimPrefix]. *)
Fixpoint HasPrefix (s pre : string) : bool :=
  match pre, s with
  | EmptyString, _ => true
  | String p pre', String c s' => Ascii.eqb p c && HasPrefix s' pre'
  | String _ _, EmptyString => false
  end.

Fixpoint dropBytes (n : nat) (s : string) : string :=
  match n, s with
  | S n', String _ s' => dropBytes n' s'
  | _, _ => s
  end.

Definition TrimPrefix (s pre : string) : string :=
  if HasPrefix s pre then dropBytes (String.length pre) s else s.

(** [strings.Split(s, sep)] for a one-byte separator: the pieces between
    the separators, one more than there are separators. *)
Fixpoint Split (s : string) (sep : ascii) : list string :=
  match s with
  | EmptyString => [EmptyString]
  | String c rest =>
      if Ascii.eqb c sep then EmptyString :: Split rest sep
      else match Split rest sep with
           | piece :: pieces => String c piece :: pieces
           | [] => [String c EmptyString]
           end
  end.

(** ** Package [strconv] *)

Definition maxUint64 : Z := 2 ^ 64 - 1.

(** [lower(c) = c | ('x' - 'X')] *)
Definition lowerBits (b : Z) : Z := Z.lor b 32.

(** The digit a byte stands for in [ParseUint], in any base up to 36. *)
Definition digitOf (c : ascii) : option Z :=
  let b := byteval c in
  if (48 <=? b) && (b <=? 57) then Some (b - 48)
  else if (97 <=? lowerBits b) && (lowerBits b <=? 122) then Some (lowerBits b - 97 + 10)
  else None.

(** The loop of [ParseUint] for an explicit base (no underscores, no
    prefix), with [maxVal = 1<<64 - 1]. *)
Fixpoint parseUintLoop (base : Z) (s : string) (n : Z) : Z + numErr :=
  match s with
  | EmptyString => inl n
  | String c rest =>
      match digitOf c with
      | None => inr ErrSyntax
      | Some d =>
          if base <=? d then inr ErrSyntax
          else if maxUint64 / base + 1 <=? n then inr ErrRange
          else let n1 := n * base + d in
               if maxUint64 <? n1 then inr ErrRange
               else parseUintLoop base rest n1
      end
  end.

Definition ParseUint (s : string) (base : Z) : Z + numErr :=
  match s with
  | EmptyString => inr ErrSyntax
  | _ => parseUintLoop base s 0
  end.

(** [strconv.ParseInt(s, base, 64)] for [2 <= base <= 36]. *)
Definition ParseInt (s : string) (base : Z) : Res Z :=
  match s with
  | EmptyString => Fail (NumError "ParseInt" s ErrSyntax)
  | String c rest =>
      let neg := Ascii.eqb c "-" in
      let digits := if Ascii.eqb c "+" || neg then rest else s in
      match ParseUint digits base with
      | inr ErrSyntax => Fail (NumError "ParseInt" s ErrSyntax)
      | inr ErrRange => Fail (NumError "ParseInt" s ErrRange)
      | inl un =>
          let cutoff := 2 ^ 63 in
          if negb neg && (cutoff <=? un) then Fail (NumError "ParseInt" s ErrRange)
          else if neg && (cutoff <? un) then Fail (NumError "ParseInt" s ErrRange)
          else Ret (if neg then - un else un)
      end
  end.

(** The fast path of [Atoi]: [ch -= '0'; if ch > 9 { syntax error }]. *)
Fixpoint atoiLoop (s : string) (n : Z) : option Z :=
  match s with
  | EmptyString => Some n
  | String c rest =>
      let ch := (byteval c - 48) mod 256 in
      if 9 <? ch then None else atoiLoop rest (n * 10 + ch)
  end.

Definition Atoi (s : string) : Res Z :=
  let sLen := Z.of_nat (String.length s) in
  if (0 <? sLen) && (sLen <? 19) then
    match s with
    | EmptyString => Fail (NumError "Atoi" s ErrSyntax)
    | String c rest =>
        let signed := Ascii.eqb c "-" || Ascii.eqb c "+" in
        let digits := if signed then rest else s in
        if signed && (Z.of_nat (String.length digits) <? 1) then Fail (NumError "Atoi" s ErrSyntax)
        else match atoiLoop digits 0 with
             | None => Fail (NumError "Atoi" s ErrSyntax)
             | Some n => Ret (if Ascii.eqb c "-" then - n else n)
             end
    end
  else
    match ParseInt s 10 with
    | Fail (NumError _ num err) => Fail (NumError "Atoi" num err)
    | other => other
    end.

(** ** The padding parser *)

Module Padding.
Record t : Type := mk { top : Z; right : Z; bottom : Z; left : Z }.
End Padding.

Definition parsePadding (paddingStr : string) : Res Padding.t :=
  let paddings := Split paddingStr "," in
  let pdArgs := if String.eqb paddingStr "" then 0%nat else length paddings in
  match pdArgs with
  | 0%nat => Ret (Padding.mk 0 0 0 0)
  | 1%nat =>
      (let* p0 := index paddings 0 in
       let* padding := wrapErr "parse padding" (Atoi p0) in
       Ret (Padding.mk padding padding padding padding))%res
  | 2%nat =>
      (let* p0 := index paddings 0 in
       let* ypadding := wrapErr "parse vertical padding" (Atoi p0) in
       let* p1 := index paddings 1 in
       let* xpadding := wrapErr "parse horizontal padding" (Atoi p1) in
       Ret (Padding.mk ypadding xpadding ypadding xpadding))%res
  | 4%nat =>
      (let* p0 := index paddings 0 in
       let* tpadding := wrapErr "parse top padding" (Atoi p0) in
       let* p1 := index paddings 1 in
       let* rpadding := wrapErr "parse right padding" (Atoi p1) in
       let* p2 := index paddings 2 in
       let* bpadding := wrapErr "parse bottom padding" (Atoi p2) in
       let* p3 := index paddings 3 in
       let* lpadding := wrapErr "parse left padding" (Atoi p3) in
       Ret (Padding.mk tpadding rpadding bpadding lpadding))%res
  | _ => Fail (Errorf "invalid padding")
  end.

(** ** Package [image/color] *)

(** The colour types the program meets.  [RGBA] is alpha-premultiplied
    with 8-bit fields, [NRGBA] is not premultiplied; [RGBA64] stands for
    any other colour through its 16-bit premultiplied channels. *)
Inductive Color : Type :=
| Gray16 (Y : Z)
| Alpha16 (A : Z)
| RGBA (R G B A : Z)
| NRGBA (R G B A : Z)
| RGBA64 (R G B A : Z).

Definition Black : Color := Gray16 0.
Definition White : Color := Gray16 65535.
Definition Transparent : Color := Alpha16 0.
Definition Opaque : Color := Alpha16 65535.

(** [c | c << 8] on a [uint32]. *)
Definition spread (c : Z) : Z := Z.lor c (Z.shiftl c 8).

(** The method [RGBA()]: the 16-bit alpha-premultiplied channels. *)
Definition Color_RGBA (c : Color) : Z * Z * Z * Z :=
  match c with
  | Gray16 y => (y, y, y, 65535)
  | Alpha16 a => (a, a, a, a)
  | RGBA r g b a => (spread r, spread g, spread b, spread a)
  | NRGBA r g b a =>
      (spread r * a / 255, spread g * a / 255, spread b * a / 255, spread a)
  | RGBA64 r g b a => (r, g, b, a)
  end.

Definition uint8 (x : Z) : Z := x mod 256.
Definition uint32 (x : Z) : Z := x mod 2 ^ 32.

(** ** Package [regexp]: the expression [\w{2}] *)

(** [\w] is [[0-9A-Za-z_]], ASCII only; a byte of a multi-byte rune never
    matches, so the scan can go byte by byte. *)
Definition isWordByte (c : ascii) : bool :=
  let b := byteval c in
  ((48 <=? b) && (b <=? 57)) || ((65 <=? b) && (b <=? 90))
  || ((97 <=? b) && (b <=? 122)) || (b =? 95).

(** [hexReg.FindAllString(s, n)]: the leftmost matches that do not
    overlap, [n] of them at most. *)
Fixpoint FindAllString (s : string) (n : nat) {struct s} : list string :=
  match n, s with
  | S n', String a s' =>
      match s' with
      | String b rest =>
          if isWordByte a && isWordByte b
          then String a (String b EmptyString) :: FindAllString rest n'
          else FindAllString s' n
      | EmptyString => []
      end
  | _, _ => []
  end.

(** ** The colour parser *)

Definition parseHexColor (hexStr : string) : Res Color :=
  let colorVals := FindAllString (TrimPrefix hexStr "#") 3 in
  (let* c0 := index colorVals 0 in
   let* r := ParseInt c0 16 in
   let* c1 := index colorVals 1 in
   let* g := ParseInt c1 16 in
   let* c2 := index colorVals 2 in
   let* b := ParseInt c2 16 in
   Ret (RGBA (uint8 r) (uint8 g) (uint8 b) 0))%res.

(** ** Package [path/filepath] (Unix) *)

(** The loop of [Ext], from the last byte down: [acc] is [path[i+1:]]. *)
Fixpoint scanExt (revpath : list ascii) (acc : string) : string :=
  match revpath with
  | [] => EmptyString
  | c :: more =>
      if Ascii.eqb c "/" then EmptyString
      else if Ascii.eqb c "." then String c acc
      else scanExt more (String c acc)
  end.

Definition Ext (path : string) : string :=
  scanExt (rev (list_ascii_of_string path)) EmptyString.

(** ** Package [image]: points and rectangles *)

Record Point : Type := Pt { X : Z; Y : Z }.
Record Rectangle : Type := Rectangle_ { Min : Point; Max : Point }.

Definition ZP : Point := Pt 0 0.
Definition ZR : Rectangle := Rectangle_ ZP ZP.

Definition Point_Add (p q : Point) : Point :=
  Pt (GoInt.add (X p) (X q)) (GoInt.add (Y p) (Y q)).

Definition Point_Sub (p q : Point) : Point :=
  Pt (GoInt.sub (X p) (X q)) (GoInt.sub (Y p) (Y q)).

Definition Point_In (p : Point) (r : Rectangle) : bool :=
  (X (Min r) <=? X p) && (X p <? X (Max r))
  && (Y (Min r) <=? Y p) && (Y p <? Y (Max r)).

(** [image.Rect]: the corners are swapped where needed, so that the
    result is well-formed. *)
Definition Rect (x0 y0 x1 y1 : Z) : Rectangle :=
  let '(x0, x1) := if x1 <? x0 then (x1, x0) else (x0, x1) in
  let '(y0, y1) := if y1 <? y0 then (y1, y0) else (y0, y1) in
  Rectangle_ (Pt x0 y0) (Pt x1 y1).

Definition Dx (r : Rectangle) : Z := GoInt.sub (X (Max r)) (X (Min r)).
Definition Dy (r : Rectangle) : Z := GoInt.sub (Y (Max r)) (Y (Min r)).

Definition Rectangle_Add (r : Rectangle) (p : Point) : Rectangle :=
  Rectangle_ (Point_Add (Min r) p) (Point_Add (Max r) p).

Definition Empty (r : Rectangle) : bool :=
  (X (Max r) <=? X (Min r)) || (Y (Max r) <=? Y (Min r)).

Definition Intersect (r s : Rectangle) : Rectangle :=
  let minX := if X (Min r) <? X (Min s) then X (Min s) else X (Min r) in
  let minY := if Y (Min r) <? Y (Min s) then Y (Min s) else Y (Min r) in
  let maxX := if X (Max s) <? X (Max r) then X (Max s) else X (Max r) in
  let maxY := if Y (Max s) <? Y (Max r) then Y (Max s) else Y (Max r) in
  let r' := Rectangle_ (Pt minX minY) (Pt maxX maxY) in
  if Empty r' then ZR else r'.

(** ** Package [image]: images *)

(** The interface [image.Image], without the colour model. *)
Record Image : Type := Image_ { Bounds : Rectangle; At : Z -> Z -> Color }.

(** [image.NewUniform]: one colour, within a billion pixels of the origin. *)
Definition NewUniform (c : Color) : Image :=
  Image_ (Rectangle_ (Pt (-1000000000) (-1000000000)) (Pt 1000000000 1000000000))
         (fun _ _ => c).

(** [*image.RGBA].  [Pix] has one element per pixel, the four bytes
    [Pix[i:i+4]] of Go's buffer, and [Stride] counts pixels, not bytes. *)
Record pixel : Type := Px { pxR : Z; pxG : Z; pxB : Z; pxA : Z }.
Record RGBAImage : Type := RGBAImage_ { Pix : list pixel; Stride : Z; RGBARect : Rectangle }.

(** [x*y*z], or [-1] when an argument is negative or a product overflows. *)
Definition mul3NonNeg (x y z : Z) : Z :=
  if (x <? 0) || (y <? 0) || (z <? 0) then -1
  else if 2 ^ 64 <=? x * y then -1
  else if 2 ^ 64 <=? x * y * z then -1
  else if 2 ^ 63 <=? x * y * z then -1
  else x * y * z.

Definition NewRGBA (r : Rectangle) : Res RGBAImage :=
  let totalLength := mul3NonNeg 4 (Dx r) (Dy r) in
  if totalLength <? 0
  then Panic "image: NewRGBA Rectangle has huge or negative dimensions"
  else Ret (RGBAImage_ (replicate (Z.to_nat (totalLength / 4)) (Px 0 0 0 0)) (Dx r) r).

Definition PixOffset (m : RGBAImage) (x y : Z) : Z :=
  (y - Y (Min (RGBARect m))) * Stride m + (x - X (Min (RGBARect m))).

(** [m.RGBAAt(x, y)]: the zero colour outside the rectangle. *)
Definition RGBAAt (m : RGBAImage) (x y : Z) : pixel :=
  if Point_In (Pt x y) (RGBARect m)
  then default (Px 0 0 0 0) (Pix m !! Z.to_nat (PixOffset m x y))
  else Px 0 0 0 0.

Definition setPix (m : RGBAImage) (x y : Z) (c : pixel) : RGBAImage :=
  RGBAImage_ (<[Z.to_nat (PixOffset m x y) := c]> (Pix m)) (Stride m) (RGBARect m).

(** ** Package [image/draw] *)

Inductive Op : Type := Over | Src.

(** [clip] without a mask: the rectangle cut to the destination and to
    the source, and the source point moved along. *)
Definition clip (dstBounds r srcBounds : Rectangle) (sp : Point) : Rectangle * Point :=
  let orig := Min r in
  let r := Intersect r dstBounds in
  let r := Intersect r (Rectangle_Add srcBounds (Point_Sub orig sp)) in
  let dx := GoInt.sub (X (Min r)) (X orig) in
  let dy := GoInt.sub (Y (Min r)) (Y orig) in
  if (dx =? 0) && (dy =? 0) then (r, sp)
  else (r, Pt (GoInt.add (X sp) dx) (GoInt.add (Y sp) dy)).

(** One channel of the pixel loop of [drawRGBA], in [uint32] arithmetic
    with [m = 1<<16 - 1] and no mask ([ma = m]). *)
Definition m16 : Z := 65535.

Definition overChannel (d s sa : Z) : Z :=
  let a := uint32 ((m16 - uint32 (sa * m16) / m16) * 257) in
  uint8 (Z.shiftr (uint32 (d * a + s * m16) / m16) 8).

Definition srcChannel (s : Z) : Z :=
  uint8 (Z.shiftr (uint32 (s * m16) / m16) 8).

Definition blend (op : Op) (d : pixel) (c : Color) : pixel :=
  let '(sr, sg, sb, sa) := Color_RGBA c in
  match op with
  | Over => Px (overChannel (pxR d) sr sa) (overChannel (pxG d) sg sa)
               (overChannel (pxB d) sb sa) (overChannel (pxA d) sa sa)
  | Src => Px (srcChannel sr) (srcChannel sg) (srcChannel sb) (srcChannel sa)
  end.

(** The pixel a canvas holds where the colour [c] was stored with [Src]:
    what [color.RGBAModel.Convert(c)] gives. *)
Definition fillPixel (c : Color) : pixel := blend Src (Px 0 0 0 0) c.

(** The 16-bit alpha of a colour. *)
Definition alpha16 (c : Color) : Z := (Color_RGBA c).2.

(** [for i := lo; i != lo+n; i++ { s = body(i, s) }] *)
Fixpoint forRange {S : Type} (lo : Z) (n : nat) (body : Z -> S -> S) (s : S) : S :=
  match n with
  | O => s
  | S n' => forRange (lo + 1) n' body (body lo s)
  end.

(** The general pixel loop [drawRGBA] for a source other than the
    destination.  The loops of [draw.Draw] that are specialised by source
    type ([drawFillSrc], [drawCopyOver], [drawNRGBAOver], ...) store the
    same bytes for the colours the decoders and [image.Uniform] give. *)
Definition drawRGBA (dst : RGBAImage) (r : Rectangle) (src : Image) (sp : Point) (op : Op)
  : RGBAImage :=
  forRange (Y (Min r)) (Z.to_nat (Y (Max r) - Y (Min r)))
    (fun y dst =>
       forRange (X (Min r)) (Z.to_nat (X (Max r) - X (Min r)))
         (fun x dst =>
            let sx := GoInt.add (X sp) (x - X (Min r)) in
            let sy := GoInt.add (Y sp) (y - Y (Min r)) in
            setPix dst x y (blend op (RGBAAt dst x y) (At src sx sy)))
         dst)
    dst.

(** [draw.Draw(dst, r, src, sp, op)] for a [*image.RGBA] destination. *)
Definition Draw (dst : RGBAImage) (r : Rectangle) (src : Image) (sp : Point) (op : Op)
  : RGBAImage :=
  let '(r, sp) := clip (RGBARect dst) r (Bounds src) sp in
  if Empty r then dst else drawRGBA dst r src sp op.

(** ** The configuration *)

Record Config : Type := Config_ { bgColor : Color; padding : Padding.t }.

(** ** The compositing steps of the two conversions *)

(** [image.Rect(0, 0, newWidth, newHeight)] of both conversions. *)
Definition canvasRect (bounds : Rectangle) (pad : Padding.t) : Rectangle :=
  let newWidth := GoInt.add (GoInt.add (Dx bounds) (Padding.right pad)) (Padding.left pad) in
  let newHeight := GoInt.add (GoInt.add (Dy bounds) (Padding.top pad)) (Padding.bottom pad) in
  Rect 0 0 newWidth newHeight.

(** The two calls of [draw.Draw], on the canvas [destImg] and with the
    colour [fill] behind [image.NewUniform]. *)
Definition fillCanvas (destImg : RGBAImage) (newRect : Rectangle) (fill : Color)
  (srcImg : Image) : RGBAImage :=
  Draw destImg newRect (NewUniform fill) (Min (Bounds srcImg)) Src.

Definition drawSource (destImg : RGBAImage) (srcImg : Image) (pad : Padding.t) : RGBAImage :=
  let bounds := Bounds srcImg in
  let offset := Pt (Padding.left pad) (Padding.top pad) in
  Draw destImg (Rectangle_Add bounds offset) srcImg (Min bounds) Over.

(** Lines 230-242 of [convertPNGToJPEG] and 271-283 of [convertJPEGToPNG],
    which differ in the colour of the fill only. *)
Definition composite (fill : Color) (srcImg : Image) (pad : Padding.t) : Res RGBAImage :=
  let bounds := Bounds srcImg in
  let newRect := canvasRect bounds pad in
  (let* destImg := NewRGBA newRect in
   Ret (drawSource (fillCanvas destImg newRect fill srcImg) srcImg pad))%res.

(** ** The files *)

(** The file system is a map from paths to contents, with the table of
    open files and the log of system calls.  A file exists or does not:
    opening fails for a missing file ([os.Open]) or for an existing one
    (the exclusive create), and for no other reason; reads and writes of
    an open file succeed. *)

(** [*os.File] *)
Record File : Type := File_ { fd : nat; fname : string; writable : bool }.

Inductive syscall : Type :=
| SysOpen (path : string)
| SysOpenExcl (path : string)
| SysRead (f : nat)
| SysWrite (f : nat) (data : list byte)
| SysClose (f : nat).

Record World : Type := World_ {
  files : gmap string (list byte);
  opened : list File;
  nextFd : nat;
  log : list syscall }.

Definition M (A : Type) : Type := World -> World * Res A.

Definition bindM {A B : Type} (c : M A) (k : A -> M B) : M B :=
  fun w =>
    match c w with
    | (w', Ret a) => k a w'
    | (w', Fail e) => (w', Fail e)
    | (w', Panic msg) => (w', Panic msg)
    end.

Definition retM {A : Type} (a : A) : M A := fun w => (w, Ret a).
Definition liftM {A : Type} (r : Res A) : M A := fun w => (w, r).

Declare Scope io_scope.
Delimit Scope io_scope with io.
Notation "'let*' x ':=' c 'in' k" := (bindM c (fun x => k))
  (at level 10, x name, c at level 100, k at level 200) : io_scope.

Definition logged (w : World) (c : syscall) : list syscall := (log w ++ [c])%list.

(** [os.Open(name)] *)
Definition os_Open (name : string) : M File :=
  fun w =>
    match files w !! name with
    | Some _ =>
        let f := File_ (nextFd w) name false in
        (World_ (files w) (f :: opened w) (S (nextFd w)) (logged w (SysOpen name)), Ret f)
    | None =>
        (World_ (files w) (opened w) (nextFd w) (logged w (SysOpen name)),
         Fail (PathError "open" name ENOENT))
    end.

(** [os.OpenFile(name, os.O_CREATE|os.O_WRONLY|os.O_EXCL, 0644)] *)
Definition os_OpenFile_excl (name : string) : M File :=
  fun w =>
    match files w !! name with
    | Some _ =>
        (World_ (files w) (opened w) (nextFd w) (logged w (SysOpenExcl name)),
         Fail (PathError "open" name EEXIST))
    | None =>
        let f := File_ (nextFd w) name true in
        (World_ (<[name := []]> (files w)) (f :: opened w) (S (nextFd w))
                (logged w (SysOpenExcl name)), Ret f)
    end.

(** [f.Close()], its result dropped. *)
Definition File_Close (f : File) : M unit :=
  fun w =>
    (World_ (files w) (filter (fun g => fd g <> fd f) (opened w)) (nextFd w)
            (logged w (SysClose (fd f))), Ret tt).

(** What a decoder reads from [f]. *)
Definition readAll (f : File) : M (list byte) :=
  fun w =>
    (World_ (files w) (opened w) (nextFd w) (logged w (SysRead (fd f))),
     Ret (default [] (files w !! fname f))).

(** What an encoder writes to [f], and the error it ends with. *)
Definition writeOut (f : File) (out : list byte * option error) : M unit :=
  fun w =>
    (World_ (<[fname f := (default [] (files w !! fname f) ++ out.1)%list]> (files w))
            (opened w) (nextFd w) (logged w (SysWrite (fd f) out.1)),
     match out.2 with Some e => Fail e | None => Ret tt end).

Section Converter.

(** A lemma depends on the section variables of its statement only. *)
Set Default Proof Using "Type".

(** [strings.Map(unicode.ToLower, s)], which [strings.ToLower] calls when
    [s] has a byte outside ASCII. *)
Variable mapUnicodeToLower : string -> string.

(** The codecs: what [png.Decode] and [jpeg.Decode] make of the bytes of
    a file, and what [png.Encode] and [jpeg.Encode] (past its size check)
    write for an image, with the error they end with. *)
Variable pngDecode : list byte -> error + Image.
Variable jpegDecode : list byte -> error + Image.
Variable pngEncode : RGBAImage -> list byte * option error.
Variable jpegEncodeBody : RGBAImage -> Z -> list byte * option error.

Definition ToLower (s : string) : string :=
  if isASCII s then lowerASCII s else mapUnicodeToLower s.

Definition parseBackgroundColor (colorStr : string) : Res Color :=
  let l := ToLower colorStr in
  if String.eqb l "black" then Ret Black
  else if String.eqb l "white" then Ret White
  else if String.eqb l "red" then Ret (RGBA 255 0 0 0)
  else if String.eqb l "green" then Ret (RGBA 0 255 0 0)
  else if String.eqb l "blue" then Ret (RGBA 0 0 255 0)
  else parseHexColor colorStr.

Definition detectFormat (filename : string) : string :=
  let ext := ToLower (Ext filename) in
  if String.eqb ext ".png" then "png"
  else if String.eqb ext ".jpeg" || String.eqb ext ".jpg" then "jpeg"
  else "unknown".

Definition decodeWith (dec : list byte -> error + Image) (f : File) : M Image :=
  (let* data := readAll f in
   liftM (match dec data with inl e => Fail e | inr img => Ret img end))%io.

Definition png_Decode : File -> M Image := decodeWith pngDecode.
Definition jpeg_Decode : File -> M Image := decodeWith jpegDecode.

Definition png_Encode (w : File) (m : RGBAImage) : M unit :=
  writeOut w (pngEncode m).

(** [jpeg.Encode(w, m, &jpeg.Options{Quality: quality})] *)
Definition jpeg_Encode (w : File) (m : RGBAImage) (quality : Z) : M unit :=
  if (65536 <=? Dx (RGBARect m)) || (65536 <=? Dy (RGBARect m))
  then liftM (Fail (CodecError "jpeg" "image is too large to encode"))
  else writeOut w (jpegEncodeBody m quality).

Definition convertPNGToJPEG (inputFile outputFile : string) (config : Config) : M unit :=
  (let* f := os_Open inputFile in
   let* srcImg := png_Decode f in
   let* _ := File_Close f in
   let* destImg := liftM (composite (bgColor config) srcImg (padding config)) in
   let* outFile := os_OpenFile_excl outputFile in
   jpeg_Encode outFile destImg 50)%io.

Definition convertJPEGToPNG (inputFile outputFile : string) (config : Config) : M unit :=
  (let* f := os_Open inputFile in
   let* srcImg := jpeg_Decode f in
   let* _ := File_Close f in
   let* outFile := os_OpenFile_excl outputFile in
   let* destImg := liftM (composite Transparent srcImg (padding config)) in
   png_Encode outFile destImg)%io.

Definition convertImage (inputFile outputFile : string) (config : Config) : M unit :=
  let inputFormat := detectFormat inputFile in
  let outputFormat := detectFormat outputFile in
  if String.eqb inputFormat "png" && String.eqb outputFormat "jpeg"
  then convertPNGToJPEG inputFile outputFile config
  else if String.eqb inputFormat "jpeg" && String.eqb outputFormat "png"
  then convertJPEGToPNG inputFile outputFile config
  else liftM (Fail (Errorf ("unsupported conversion: " ++ inputFormat ++ " to " ++ outputFormat))).

(** ** The program *)

(** [main], after [flag.Parse]: the values given for the flags [-bg]
    (default "white") and [-padding] (default ""), and the positional
    arguments.  The result is what the program prints on standard
    output, line by line, and how it ends: [Ret tt] at the end of [main],
    [Fail e] where [log.Fatalln(e)] ends the program. *)
Definition main (bgFlag paddingFlag : option string) (args : list string)
  : World -> World * (list string * Res unit) :=
  fun w =>
    let bgColor := default "white" bgFlag in
    let padding := default "" paddingFlag in
    match args with
    | [inFile; outFile] =>
        let converting := "Converting: " ++ inFile in
        match parseBackgroundColor bgColor with
        | Ret parsedColor =>
            match parsePadding padding with
            | Ret parsedPadding =>
                match convertImage inFile outFile (Config_ parsedColor parsedPadding) w with
                | (w', Ret _) => (w', ([converting; "Image converted: " ++ outFile], Ret tt))
                | (w', Fail e) => (w', ([converting], Fail e))
                | (w', Panic msg) => (w', ([converting], Panic msg))
                end
            | Fail e => (w, ([converting], Fail e))
            | Panic msg => (w, ([converting], Panic msg))
            end
        | Fail e => (w, ([converting], Fail e))
        | Panic msg => (w, ([converting], Panic msg))
        end
    | _ => (w, ([], Fail (Errorf "must provide both input file and output file names")))
    end.

(** ** The vocabulary of the properties *)

(** Whether the byte [c] occurs in [s]. *)
Fixpoint hasByte (c : ascii) (s : string) : bool :=
  match s with
  | EmptyString => false
  | String d rest => Ascii.eqb d c || hasByte c rest
  end.

(** The world of a conversion once the input is decoded and closed, and
    the world it returns in when the input does not decode. *)
Definition afterInput (inputFile : string) (w : World) : World :=
  World_ (files w)
    (filter (fun g => fd g <> nextFd w) (File_ (nextFd w) inputFile false :: opened w))
    (S (nextFd w))
    (((log w ++ [SysOpen inputFile]) ++ [SysRead (nextFd w)]) ++ [SysClose (nextFd w)])%list.

Definition afterDecodeError (inputFile : string) (w : World) : World :=
  World_ (files w) (File_ (nextFd w) inputFile false :: opened w) (S (nextFd w))
    ((log w ++ [SysOpen inputFile]) ++ [SysRead (nextFd w)])%list.

(** A canvas as [NewRGBA] makes it: the buffer has a pixel for every
    point of the rectangle, row by row. *)
Definition wfRGBA (m : RGBAImage) : Prop :=
  Stride m = X (Max (RGBARect m)) - X (Min (RGBARect m))
  /\ 0 <= Stride m
  /\ 0 <= Y (Max (RGBARect m)) - Y (Min (RGBARect m))
  /\ length (Pix m)
     = Z.to_nat (Stride m * (Y (Max (RGBARect m)) - Y (Min (RGBARect m)))).

(** The source point that [drawRGBA] reads for the destination point
    [(x, y)]. *)
Definition sourcePoint (r : Rectangle) (sp : Point) (x y : Z) : Point :=
  Pt (GoInt.add (X sp) (x - X (Min r))) (GoInt.add (Y sp) (y - Y (Min r))).

Definition within (r d : Rectangle) : Prop :=
  X (Min d) <= X (Min r) /\ X (Max r) <= X (Max d)
  /\ Y (Min d) <= Y (Min r) /\ Y (Max r) <= Y (Max d).

(** A rectangle whose coordinates are values of [int]. *)
Definition inRangeRect (r : Rectangle) : Prop :=
  (GoInt.minInt <= X (Min r) <= GoInt.maxInt /\ GoInt.minInt <= X (Max r) <= GoInt.maxInt)
  /\ (GoInt.minInt <= Y (Min r) <= GoInt.maxInt /\ GoInt.minInt <= Y (Max r) <= GoInt.maxInt).

(** No byte of the list is a dot or a path separator. *)
Definition plainBytes (l : list ascii) : bool :=
  forallb (fun c => negb (Ascii.eqb c "/") && negb (Ascii.eqb c ".")) l.

(** A padding whose four edges are values of [int]. *)
Definition paddingInRange (p : Padding.t) : Prop :=
  (GoInt.minInt <= Padding.top p <= GoInt.maxInt
   /\ GoInt.minInt <= Padding.right p <= GoInt.maxInt)
  /\ (GoInt.minInt <= Padding.bottom p <= GoInt.maxInt
      /\ GoInt.minInt <= Padding.left p <= GoInt.maxInt).

(** The canvas lies where the uniform image of the fill reaches: the
    source does not start below minus a billion, and the canvas, put at
    the source's origin, ends before a billion. *)
Definition withinUniform (srcImg : Image) (cr : Rectangle) : Prop :=
  (-1000000000 <= X (Min (Bounds srcImg))
   /\ Dx cr + X (Min (Bounds srcImg)) <= 1000000000)
  /\ (-1000000000 <= Y (Min (Bounds srcImg))
      /\ Dy cr + Y (Min (Bounds srcImg)) <= 1000000000).

(** ** Sample data for the concrete runs *)

(** A source of two pixels, the first half transparent, and one of a
    single white pixel. *)
Definition twoPixels : Image :=
  Image_ (Rect 0 0 2 1) (fun x _ => if x =? 0 then NRGBA 10 20 30 128 else RGBA 1 2 3 255).

Definition onePixel : Image := Image_ (Rect 0 0 1 1) (fun _ _ => White).

(** Codecs that read [twoPixels] from any file but an empty one, and
    write a signature for any image. *)
Definition sampleDecode (data : list byte) : error + Image :=
  match data with
  | [] => inl (CodecError "codec" "unexpected EOF")
  | _ => inr twoPixels
  end.

Definition samplePNG (m : RGBAImage) : list byte * option error := ([x89; x50]%byte, None).

Definition sampleJPEG (m : RGBAImage) (quality : Z) : list byte * option error :=
  ([xff; xd8]%byte, None).

Definition sampleWorld : World :=
  World_ (<["in.png" := [x89]%byte]>
            (<["in.jpg" := [xff]%byte]>
               (<["bad.png" := []]>
                  (<["old.jpg" := [x00]%byte]> (∅ : gmap string (list byte))))))
         [] 3 [].

Definition samplePadding : Padding.t := Padding.mk 1 0 0 1.

(** The canvas of [twoPixels] over white, with one row above it and one
    column to its left. *)
Definition twoPixelsCanvas : RGBAImage :=
  Eval vm_compute in
    match composite White twoPixels samplePadding with
    | Ret canvas => canvas
    | _ => RGBAImage_ [] 0 ZR
    end.

(** A padding of a billion pixels to the right. *)
Definition widePadding : Padding.t := Padding.mk 0 1000000000 0 0.

(** The same source over a transparent fill. *)
Definition twoPixelsOnTransparent : RGBAImage :=
  Eval vm_compute in
    match composite Transparent twoPixels samplePadding with
    | Ret canvas => canvas
    | _ => RGBAImage_ [] 0 ZR
    end.

(** A padding too wide for any canvas. *)
Definition hugePadding : Padding.t := Padding.mk 0 (2 ^ 62) 0 0.

(** * Properties *)

(** ** Results *)

Lemma bindR_Ret {A B : Type} (a : A) (k : A -> Res B) : bindR (Ret a) k = k a.
Proof. reflexivity. Qed.

Lemma wrapErr_Ret {A : Type} (msg : string) (a : A) : wrapErr msg (Ret a) = Ret a.
Proof. reflexivity. Qed.

(** ** The padding parser *)

Lemma Split_nonempty (s : string) (sep : ascii) : Split s sep <> [].
Proof.
  destruct s as [|c rest]; simpl; [discriminate|].
  destruct (Ascii.eqb c sep); [discriminate|].
  destruct (Split rest sep); discriminate.
Qed.

Lemma Split_empty_string (s : string) (sep : ascii) (pieces : list string) :
  Split s sep = EmptyString :: pieces -> s = EmptyString \/ exists rest, s = String sep rest.
Proof.
  destruct s as [|c rest]; [now left|]. simpl.
  destruct (Ascii.eqb_spec c sep) as [->|Hne]; [right; eauto|].
  destruct (Split rest sep); discriminate.
Qed.


Lemma Split_no_sep (s : string) (sep : ascii) : hasByte sep s = false -> Split s sep = [s].
Proof.
  induction s as [|c rest IH]; simpl; [reflexivity|].
  intros H. apply orb_false_iff in H as [Hc Hrest].
  rewrite Hc, (IH Hrest). reflexivity.
Qed.

Lemma Split_cons (t s : string) (sep : ascii) :
  hasByte sep t = false -> Split (t ++ String sep s) sep = t :: Split s sep.
Proof.
  induction t as [|c rest IH]; simpl; intros H.
  - now rewrite Ascii.eqb_refl.
  - apply orb_false_iff in H as [Hc Hrest]. rewrite Hc, (IH Hrest). reflexivity.
Qed.

Lemma parsePadding_count (s : string) :
  s <> "" ->
  parsePadding s =
    match length (Split s ",") with
    | 1%nat =>
        (let* p0 := index (Split s ",") 0 in
         let* padding := wrapErr "parse padding" (Atoi p0) in
         Ret (Padding.mk padding padding padding padding))%res
    | 2%nat =>
        (let* p0 := index (Split s ",") 0 in
         let* ypadding := wrapErr "parse vertical padding" (Atoi p0) in
         let* p1 := index (Split s ",") 1 in
         let* xpadding := wrapErr "parse horizontal padding" (Atoi p1) in
         Ret (Padding.mk ypadding xpadding ypadding xpadding))%res
    | 4%nat =>
        (let* p0 := index (Split s ",") 0 in
         let* tpadding := wrapErr "parse top padding" (Atoi p0) in
         let* p1 := index (Split s ",") 1 in
         let* rpadding := wrapErr "parse right padding" (Atoi p1) in
         let* p2 := index (Split s ",") 2 in
         let* bpadding := wrapErr "parse bottom padding" (Atoi p2) in
         let* p3 := index (Split s ",") 3 in
         let* lpadding := wrapErr "parse left padding" (Atoi p3) in
         Ret (Padding.mk tpadding rpadding bpadding lpadding))%res
    | _ => Fail (Errorf "invalid padding")
    end.
Proof.
  intros Hne. unfold parsePadding.
  apply String.eqb_neq in Hne. rewrite Hne.
  pose proof (Split_nonempty s ",") as Hsplit.
  destruct (Split s ",") as [|p0 [|p1 [|p2 [|p3 [|p4 more]]]]]; try reflexivity.
  contradiction.
Qed.

Lemma Atoi_empty (v : Z) : Atoi "" <> Ret v.
Proof. discriminate. Qed.

(** C7.  The padding parser gives four zero edges for the empty string;
    for one token [v] it gives [v] on all four edges; for two tokens
    [v1,v2] it gives top = bottom = [v1] and right = left = [v2]; for four
    tokens it gives (top, right, bottom, left) in that order; and for every
    other number of tokens (3, 5, ...) it fails with the error
    "invalid padding".  A token is a piece between commas, and its value
    is what [strconv.Atoi] reads. *)
Theorem parsePadding_expansion :
  parsePadding "" = Ret (Padding.mk 0 0 0 0)
  /\ (forall s t v,
        Split s "," = [t] -> Atoi t = Ret v ->
        parsePadding s = Ret (Padding.mk v v v v))
  /\ (forall s t1 t2 v1 v2,
        Split s "," = [t1; t2] -> Atoi t1 = Ret v1 -> Atoi t2 = Ret v2 ->
        parsePadding s = Ret (Padding.mk v1 v2 v1 v2))
  /\ (forall s t1 t2 t3 t4 v1 v2 v3 v4,
        Split s "," = [t1; t2; t3; t4] ->
        Atoi t1 = Ret v1 -> Atoi t2 = Ret v2 -> Atoi t3 = Ret v3 -> Atoi t4 = Ret v4 ->
        parsePadding s = Ret (Padding.mk v1 v2 v3 v4))
  /\ (forall s,
        s <> "" ->
        length (Split s ",") <> 1%nat -> length (Split s ",") <> 2%nat ->
        length (Split s ",") <> 4%nat ->
        parsePadding s = Fail (Errorf "invalid padding")).
Proof.
  split; [reflexivity|].
  split; [|split; [|split]].
  - intros s t v Hs Ht.
    assert (s <> "") as Hne.
    { intros ->. simpl in Hs. injection Hs as <-. exact (Atoi_empty v Ht). }
    rewrite (parsePadding_count s Hne), Hs. simpl. unfold index. simpl.
    rewrite Ht. reflexivity.
  - intros s t1 t2 v1 v2 Hs H1 H2.
    assert (s <> "") as Hne by (intros ->; discriminate Hs).
    rewrite (parsePadding_count s Hne), Hs. simpl. unfold index. simpl.
    rewrite H1. simpl. rewrite H2. reflexivity.
  - intros s t1 t2 t3 t4 v1 v2 v3 v4 Hs H1 H2 H3 H4.
    assert (s <> "") as Hne by (intros ->; discriminate Hs).
    rewrite (parsePadding_count s Hne), Hs. simpl. unfold index. simpl.
    rewrite H1. simpl. rewrite H2. simpl. rewrite H3. simpl. rewrite H4. reflexivity.
  - intros s Hne N1 N2 N4.
    rewrite (parsePadding_count s Hne).
    pose proof (Split_nonempty s ",") as Hsplit.
    destruct (Split s ",") as [|p0 [|p1 [|p2 [|p3 [|p4 more]]]]]; simpl in *;
      try reflexivity; contradiction || lia.
Qed.

(** ** The colour parser *)

Lemma lowerByte_ascii (c : ascii) :
  (byteval (lowerByte c) <? 128) = (byteval c <? 128).
Proof. destruct c as [[] [] [] [] [] [] [] []]; reflexivity. Qed.

Lemma lowerASCII_isASCII (s : string) : isASCII (lowerASCII s) = isASCII s.
Proof.
  induction s as [|c rest IH]; simpl; [reflexivity|].
  now rewrite lowerByte_ascii, IH.
Qed.

(** A string that folds to an ASCII string is ASCII, so [ToLower] folds
    it byte by byte and the table of [unicode.ToLower] is not consulted. *)
Lemma ToLower_fold (s t : string) :
  lowerASCII s = t -> isASCII t = true -> ToLower s = t.
Proof.
  intros Hfold Ht. unfold ToLower.
  rewrite <- (lowerASCII_isASCII s), Hfold, Ht. reflexivity.
Qed.

(** C1.  What the colour parser returns for a string that equals a colour
    name up to the case of its ASCII letters: [color.Black] for "black",
    [color.White] for "white", and [color.RGBA] values with only one field
    set for "red", "green" and "blue".  Stored in a canvas, black and white
    are opaque (alpha 255); red, green and blue have the documented R, G
    and B, but alpha 0, the zero value of the field [A]. *)
Theorem parseBackgroundColor_named (colorStr : string) :
  (lowerASCII colorStr = "black" -> parseBackgroundColor colorStr = Ret Black)
  /\ (lowerASCII colorStr = "white" -> parseBackgroundColor colorStr = Ret White)
  /\ (lowerASCII colorStr = "red" -> parseBackgroundColor colorStr = Ret (RGBA 255 0 0 0))
  /\ (lowerASCII colorStr = "green" -> parseBackgroundColor colorStr = Ret (RGBA 0 255 0 0))
  /\ (lowerASCII colorStr = "blue" -> parseBackgroundColor colorStr = Ret (RGBA 0 0 255 0))
  /\ fillPixel Black = Px 0 0 0 255
  /\ fillPixel White = Px 255 255 255 255
  /\ fillPixel (RGBA 255 0 0 0) = Px 255 0 0 0
  /\ fillPixel (RGBA 0 255 0 0) = Px 0 255 0 0
  /\ fillPixel (RGBA 0 0 255 0) = Px 0 0 255 0.
Proof.
  repeat split; try reflexivity; intros Hfold; unfold parseBackgroundColor;
    rewrite (ToLower_fold colorStr _ Hfold eq_refl); reflexivity.
Qed.

Lemma FindAllString_length_aux (k : nat) :
  forall (s : string) (n : nat),
    (String.length s <= k)%nat -> (length (FindAllString s n) <= n)%nat.
Proof.
  induction k as [|k IH]; intros s n Hk.
  - destruct s; simpl in Hk; [|lia]. destruct n; simpl; lia.
  - destruct s as [|a s']; [destruct n; simpl; lia|].
    destruct n as [|n']; [simpl; lia|].
    simpl in Hk. destruct s' as [|b rest]; [simpl; lia|].
    change (FindAllString (String a (String b rest)) (S n'))
      with (if isWordByte a && isWordByte b
            then String a (String b EmptyString) :: FindAllString rest n'
            else FindAllString (String b rest) (S n')).
    destruct (isWordByte a && isWordByte b).
    + simpl. simpl in Hk. specialize (IH rest n'). lia.
    + apply IH. lia.
Qed.

Lemma FindAllString_length (s : string) (n : nat) :
  (length (FindAllString s n) <= n)%nat.
Proof. exact (FindAllString_length_aux (String.length s) s n (le_n _)). Qed.

Lemma ParseInt_no_panic (s : string) (base : Z) (msg : string) : ParseInt s base <> Panic msg.
Proof.
  unfold ParseInt. destruct s as [|c rest]; [discriminate|].
  destruct (ParseUint _ base) as [un|[]]; try discriminate.
  destruct (negb _ && _); [discriminate|].
  destruct (_ && _); discriminate.
Qed.

(** C2.  What the colour parser does with a string that is no colour
    name.  It hands the string to [parseHexColor], which strips one leading
    '#' and takes up to three two-byte word tokens.  Three tokens that are
    hexadecimal give the colour with these R, G and B, with the field [A]
    left at 0; a token that is not hexadecimal gives the error of
    [strconv.ParseInt]; fewer than three tokens, all hexadecimal, give no
    error value but a run-time panic (an index out of range). *)
Theorem parseBackgroundColor_hex (colorStr : string) :
  ToLower colorStr <> "black" -> ToLower colorStr <> "white" ->
  ToLower colorStr <> "red" -> ToLower colorStr <> "green" ->
  ToLower colorStr <> "blue" ->
  parseBackgroundColor colorStr = parseHexColor colorStr
  /\ (forall t0 t1 t2 r g b,
        FindAllString (TrimPrefix colorStr "#") 3 = [t0; t1; t2] ->
        ParseInt t0 16 = Ret r -> ParseInt t1 16 = Ret g -> ParseInt t2 16 = Ret b ->
        parseBackgroundColor colorStr = Ret (RGBA (uint8 r) (uint8 g) (uint8 b) 0))
  /\ (Exists (fun t => exists e, ParseInt t 16 = Fail e)
             (FindAllString (TrimPrefix colorStr "#") 3) ->
      exists e, parseBackgroundColor colorStr = Fail e)
  /\ ((length (FindAllString (TrimPrefix colorStr "#") 3) < 3)%nat ->
      Forall (fun t => exists v, ParseInt t 16 = Ret v)
             (FindAllString (TrimPrefix colorStr "#") 3) ->
      parseBackgroundColor colorStr = Panic "runtime error: index out of range").
Proof.
  intros Nk Nw Nr Ng Nb.
  assert (parseBackgroundColor colorStr = parseHexColor colorStr) as Hhex.
  { unfold parseBackgroundColor.
    apply String.eqb_neq in Nk, Nw, Nr, Ng, Nb.
    now rewrite Nk, Nw, Nr, Ng, Nb. }
  rewrite Hhex. split; [reflexivity|]. unfold parseHexColor.
  pose proof (FindAllString_length (TrimPrefix colorStr "#") 3) as Hlen.
  destruct (FindAllString (TrimPrefix colorStr "#") 3) as [|ta [|tb [|tc more]]];
    simpl in Hlen; [| | |destruct more; [|simpl in Hlen; lia]].
  - split; [discriminate|]. split; [|reflexivity].
    intros H. inversion H.
  - split; [discriminate|]. split.
    + intros H. inversion H as [? ? [e He]|? ? H']; [|inversion H']; subst.
      unfold index; simpl. rewrite He. simpl. eauto.
    + intros _ H. inversion H as [|? ? [v Hv] _]; subst.
      unfold index; simpl. rewrite Hv. reflexivity.
  - split; [discriminate|]. split.
    + intros H. unfold index; simpl.
      destruct (ParseInt ta 16) as [va|ea|ma] eqn:Ha; simpl; eauto.
      * inversion H as [? ? [e He]|? ? H']; subst; [congruence|].
        inversion H' as [? ? [e He]|? ? H'']; [|inversion H'']; subst.
        rewrite He. simpl. eauto.
      * exfalso. exact (ParseInt_no_panic _ _ _ Ha).
    + intros _ H. inversion H as [|? ? [va Ha] H']; subst.
      inversion H' as [|? ? [vb Hb] _]; subst.
      unfold index; simpl. rewrite Ha. simpl. rewrite Hb. reflexivity.
  - split; [|split].
    + intros t0 t1 t2 r g b Heq H0 H1 H2. injection Heq as <- <- <-.
      unfold index; simpl. rewrite H0. simpl. rewrite H1. simpl. rewrite H2. reflexivity.
    + intros H. unfold index; simpl.
      destruct (ParseInt ta 16) as [va|ea|ma] eqn:Ha; simpl; eauto;
        [|exfalso; exact (ParseInt_no_panic _ _ _ Ha)].
      destruct (ParseInt tb 16) as [vb|eb|mb] eqn:Hb; simpl; eauto;
        [|exfalso; exact (ParseInt_no_panic _ _ _ Hb)].
      destruct (ParseInt tc 16) as [vc|ec|mc] eqn:Hc; simpl; eauto;
        [|exfalso; exact (ParseInt_no_panic _ _ _ Hc)].
      exfalso.
      inversion H as [? ? [e He]|? ? H1]; subst; [congruence|].
      inversion H1 as [? ? [e He]|? ? H2]; subst; [congruence|].
      inversion H2 as [? ? [e He]|? ? H3]; subst; [congruence|].
      inversion H3.
    + simpl. lia.
Qed.

(** ** The format dispatch and the files *)

Lemma detectFormat_values (filename : string) :
  detectFormat filename = "png" \/ detectFormat filename = "jpeg"
  \/ detectFormat filename = "unknown".
Proof.
  unfold detectFormat.
  destruct (String.eqb _ ".png"); [now left|].
  destruct (String.eqb _ ".jpeg" || String.eqb _ ".jpg"); [right; now left|right; now right].
Qed.

(** C8.  When the detected formats are neither (png, jpeg) nor
    (jpeg, png), the conversion fails with the error "unsupported
    conversion: <input format> to <output format>", and the world is left
    as it was: no file is opened, created, read or written, and the log of
    system calls does not grow. *)
Theorem convertImage_unsupported
  (inputFile outputFile : string) (config : Config) (w : World) :
  ~ (detectFormat inputFile = "png" /\ detectFormat outputFile = "jpeg") ->
  ~ (detectFormat inputFile = "jpeg" /\ detectFormat outputFile = "png") ->
  convertImage inputFile outputFile config w =
    (w, Fail (Errorf ("unsupported conversion: " ++ detectFormat inputFile
                        ++ " to " ++ detectFormat outputFile))).
Proof.
  intros Npj Njp. unfold convertImage.
  destruct (String.eqb_spec (detectFormat inputFile) "png") as [Hi|Hi];
    destruct (String.eqb_spec (detectFormat outputFile) "jpeg") as [Ho|Ho];
    simpl; try (exfalso; apply Npj; now split);
    destruct (String.eqb_spec (detectFormat inputFile) "jpeg") as [Hi'|Hi'];
    destruct (String.eqb_spec (detectFormat outputFile) "png") as [Ho'|Ho'];
    simpl; try (exfalso; apply Njp; now split); reflexivity.
Qed.

Lemma convertImage_png_jpeg (inputFile outputFile : string) (config : Config) :
  detectFormat inputFile = "png" -> detectFormat outputFile = "jpeg" ->
  convertImage inputFile outputFile config = convertPNGToJPEG inputFile outputFile config.
Proof. intros Hi Ho. unfold convertImage. now rewrite Hi, Ho. Qed.

Lemma convertImage_jpeg_png (inputFile outputFile : string) (config : Config) :
  detectFormat inputFile = "jpeg" -> detectFormat outputFile = "png" ->
  convertImage inputFile outputFile config = convertJPEGToPNG inputFile outputFile config.
Proof. intros Hi Ho. unfold convertImage. now rewrite Hi, Ho. Qed.

(** The steps of a conversion, one equation each. *)
Ltac run_io :=
  cbv beta iota zeta;
  cbn [files opened nextFd log fst snd fd fname writable bindM liftM retM].

Lemma run_os_Open_some (name : string) (w : World) (data : list byte) :
  files w !! name = Some data ->
  os_Open name w
  = (World_ (files w) (File_ (nextFd w) name false :: opened w) (S (nextFd w))
            (logged w (SysOpen name)),
     Ret (File_ (nextFd w) name false)).
Proof. intros H. unfold os_Open. now rewrite H. Qed.

Lemma run_os_Open_none (name : string) (w : World) :
  files w !! name = None ->
  os_Open name w
  = (World_ (files w) (opened w) (nextFd w) (logged w (SysOpen name)),
     Fail (PathError "open" name ENOENT)).
Proof. intros H. unfold os_Open. now rewrite H. Qed.

Lemma run_os_OpenFile_some (name : string) (w : World) (data : list byte) :
  files w !! name = Some data ->
  os_OpenFile_excl name w
  = (World_ (files w) (opened w) (nextFd w) (logged w (SysOpenExcl name)),
     Fail (PathError "open" name EEXIST)).
Proof. intros H. unfold os_OpenFile_excl. now rewrite H. Qed.

Lemma run_os_OpenFile_none (name : string) (w : World) :
  files w !! name = None ->
  os_OpenFile_excl name w
  = (World_ (<[name := []]> (files w)) (File_ (nextFd w) name true :: opened w)
            (S (nextFd w)) (logged w (SysOpenExcl name)),
     Ret (File_ (nextFd w) name true)).
Proof. intros H. unfold os_OpenFile_excl. now rewrite H. Qed.


Lemma run_input (dec : list byte -> error + Image) (inputFile : string) (w : World)
  {A : Type} (k : Image -> M A) :
  bindM (os_Open inputFile)
    (fun f => bindM (decodeWith dec f) (fun srcImg => bindM (File_Close f) (fun _ => k srcImg))) w
  = match files w !! inputFile with
    | None => (World_ (files w) (opened w) (nextFd w) (logged w (SysOpen inputFile)),
               Fail (PathError "open" inputFile ENOENT))
    | Some data =>
        match dec data with
        | inl e => (afterDecodeError inputFile w, Fail e)
        | inr srcImg => k srcImg (afterInput inputFile w)
        end
    end.
Proof.
  unfold bindM at 1.
  destruct (files w !! inputFile) as [data|] eqn:Hin.
  - rewrite (run_os_Open_some _ _ _ Hin).
    unfold decodeWith, readAll, liftM, File_Close, logged, bindM. run_io.
    rewrite Hin. cbn [default from_option id].
    destruct (dec data) as [e|srcImg]; reflexivity.
  - rewrite (run_os_Open_none _ _ Hin). reflexivity.
Qed.

Lemma convertPNGToJPEG_run (inputFile outputFile : string) (config : Config) (w : World) :
  convertPNGToJPEG inputFile outputFile config w
  = match files w !! inputFile with
    | None => (World_ (files w) (opened w) (nextFd w) (logged w (SysOpen inputFile)),
               Fail (PathError "open" inputFile ENOENT))
    | Some data =>
        match pngDecode data with
        | inl e => (afterDecodeError inputFile w, Fail e)
        | inr srcImg =>
            match composite (bgColor config) srcImg (padding config) with
            | Ret destImg =>
                bindM (os_OpenFile_excl outputFile)
                  (fun outFile => jpeg_Encode outFile destImg 50) (afterInput inputFile w)
            | Fail e => (afterInput inputFile w, Fail e)
            | Panic msg => (afterInput inputFile w, Panic msg)
            end
        end
    end.
Proof.
  unfold convertPNGToJPEG, png_Decode. rewrite run_input.
  destruct (files w !! inputFile) as [data|]; [|reflexivity].
  destruct (pngDecode data) as [e|srcImg]; [reflexivity|].
  unfold bindM at 1, liftM.
  destruct (composite (bgColor config) srcImg (padding config)); reflexivity.
Qed.

Lemma convertJPEGToPNG_run (inputFile outputFile : string) (config : Config) (w : World) :
  convertJPEGToPNG inputFile outputFile config w
  = match files w !! inputFile with
    | None => (World_ (files w) (opened w) (nextFd w) (logged w (SysOpen inputFile)),
               Fail (PathError "open" inputFile ENOENT))
    | Some data =>
        match jpegDecode data with
        | inl e => (afterDecodeError inputFile w, Fail e)
        | inr srcImg =>
            bindM (os_OpenFile_excl outputFile)
              (fun outFile =>
                 bindM (liftM (composite Transparent srcImg (padding config)))
                   (fun destImg => png_Encode outFile destImg))
              (afterInput inputFile w)
        end
    end.
Proof.
  unfold convertJPEGToPNG, jpeg_Decode. rewrite run_input.
  destruct (files w !! inputFile) as [data|]; [|reflexivity].
  destruct (jpegDecode data) as [e|srcImg]; reflexivity.
Qed.

Lemma convertPNGToJPEG_output_exists
  (inputFile outputFile : string) (config : Config) (w : World) (data : list byte) :
  files w !! outputFile = Some data ->
  files (convertPNGToJPEG inputFile outputFile config w).1 = files w
  /\ (convertPNGToJPEG inputFile outputFile config w).2 <> Ret tt.
Proof.
  intros Hout. rewrite convertPNGToJPEG_run.
  destruct (files w !! inputFile) as [inData|]; [|split; [reflexivity|discriminate]].
  destruct (pngDecode inData) as [e|srcImg]; [split; [reflexivity|discriminate]|].
  destruct (composite _ srcImg _) as [canvas|e|msg];
    [|split; [reflexivity|discriminate]..].
  unfold bindM. rewrite (run_os_OpenFile_some outputFile (afterInput inputFile w) data Hout).
  split; [reflexivity|discriminate].
Qed.

Lemma convertJPEGToPNG_output_exists
  (inputFile outputFile : string) (config : Config) (w : World) (data : list byte) :
  files w !! outputFile = Some data ->
  files (convertJPEGToPNG inputFile outputFile config w).1 = files w
  /\ (convertJPEGToPNG inputFile outputFile config w).2 <> Ret tt.
Proof.
  intros Hout. rewrite convertJPEGToPNG_run.
  destruct (files w !! inputFile) as [inData|]; [|split; [reflexivity|discriminate]].
  destruct (jpegDecode inData) as [e|srcImg]; [split; [reflexivity|discriminate]|].
  unfold bindM. rewrite (run_os_OpenFile_some outputFile (afterInput inputFile w) data Hout).
  split; [reflexivity|discriminate].
Qed.

(** C9, as the code has it.  When the output path exists, the conversion
    does not succeed and every file is left as it was.  The error is the
    one of the exclusive-create open ("file exists") when the conversion
    gets that far: the formats are a supported pair, the input opens and
    decodes, and, from PNG to JPEG, the canvas is allocated. *)
Theorem convertImage_output_exists
  (inputFile outputFile : string) (config : Config) (w : World) (data : list byte) :
  files w !! outputFile = Some data ->
  files (convertImage inputFile outputFile config w).1 = files w
  /\ (convertImage inputFile outputFile config w).2 <> Ret tt
  /\ (forall inData srcImg canvas,
        detectFormat inputFile = "png" -> detectFormat outputFile = "jpeg" ->
        files w !! inputFile = Some inData -> pngDecode inData = inr srcImg ->
        composite (bgColor config) srcImg (padding config) = Ret canvas ->
        (convertImage inputFile outputFile config w).2
        = Fail (PathError "open" outputFile EEXIST))
  /\ (forall inData srcImg,
        detectFormat inputFile = "jpeg" -> detectFormat outputFile = "png" ->
        files w !! inputFile = Some inData -> jpegDecode inData = inr srcImg ->
        (convertImage inputFile outputFile config w).2
        = Fail (PathError "open" outputFile EEXIST)).
Proof.
  intros Hout.
  assert (files (convertImage inputFile outputFile config w).1 = files w
          /\ (convertImage inputFile outputFile config w).2 <> Ret tt) as [Hfiles Hfail].
  { unfold convertImage.
    destruct (String.eqb _ "png" && String.eqb _ "jpeg");
      [exact (convertPNGToJPEG_output_exists _ _ _ _ _ Hout)|].
    destruct (String.eqb _ "jpeg" && String.eqb _ "png");
      [exact (convertJPEGToPNG_output_exists _ _ _ _ _ Hout)|].
    split; [reflexivity|discriminate]. }
  split; [exact Hfiles|]. split; [exact Hfail|]. split.
  - intros inData srcImg canvas Hi Ho Hin Hdec Hcanvas.
    rewrite (convertImage_png_jpeg _ _ _ Hi Ho), convertPNGToJPEG_run, Hin, Hdec, Hcanvas.
    unfold bindM.
    now rewrite (run_os_OpenFile_some outputFile (afterInput inputFile w) data Hout).
  - intros inData srcImg Hi Ho Hin Hdec.
    rewrite (convertImage_jpeg_png _ _ _ Hi Ho), convertJPEGToPNG_run, Hin, Hdec.
    unfold bindM.
    now rewrite (run_os_OpenFile_some outputFile (afterInput inputFile w) data Hout).
Qed.

(** C10.  The file handles a conversion leaves open when it returns.
    When the input does not decode, the conversion returns the decoder's
    error with the input file still open: [f.Close()] comes after the
    early return.  When a conversion succeeds, the output file is still
    open: it is never closed. *)
Theorem conversion_leaves_files_open
  (inputFile outputFile : string) (config : Config) (w : World) :
  (forall data e,
      files w !! inputFile = Some data -> pngDecode data = inl e ->
      (convertPNGToJPEG inputFile outputFile config w).2 = Fail e
      /\ opened (convertPNGToJPEG inputFile outputFile config w).1
         = File_ (nextFd w) inputFile false :: opened w)
  /\ (forall data e,
      files w !! inputFile = Some data -> jpegDecode data = inl e ->
      (convertJPEGToPNG inputFile outputFile config w).2 = Fail e
      /\ opened (convertJPEGToPNG inputFile outputFile config w).1
         = File_ (nextFd w) inputFile false :: opened w)
  /\ ((convertPNGToJPEG inputFile outputFile config w).2 = Ret tt ->
      In (File_ (S (nextFd w)) outputFile true)
         (opened (convertPNGToJPEG inputFile outputFile config w).1))
  /\ ((convertJPEGToPNG inputFile outputFile config w).2 = Ret tt ->
      In (File_ (S (nextFd w)) outputFile true)
         (opened (convertJPEGToPNG inputFile outputFile config w).1)).
Proof.
  split; [|split; [|split]].
  - intros data e Hin Hdec. rewrite convertPNGToJPEG_run, Hin, Hdec. now split.
  - intros data e Hin Hdec. rewrite convertJPEGToPNG_run, Hin, Hdec. now split.
  - rewrite convertPNGToJPEG_run.
    destruct (files w !! inputFile) as [inData|]; [|discriminate].
    destruct (pngDecode inData) as [e|srcImg]; [discriminate|].
    destruct (composite _ srcImg _) as [canvas|e|msg]; [|discriminate..].
    unfold bindM.
    destruct (files (afterInput inputFile w) !! outputFile) as [outData|] eqn:Hout.
    + rewrite (run_os_OpenFile_some _ _ _ Hout). discriminate.
    + rewrite (run_os_OpenFile_none _ _ Hout). unfold jpeg_Encode.
      destruct ((65536 <=? Dx (RGBARect canvas)) || (65536 <=? Dy (RGBARect canvas)));
        [discriminate|].
      intros _. unfold writeOut. run_io. now left.
  - rewrite convertJPEGToPNG_run.
    destruct (files w !! inputFile) as [inData|]; [|discriminate].
    destruct (jpegDecode inData) as [e|srcImg]; [discriminate|].
    unfold bindM.
    destruct (files (afterInput inputFile w) !! outputFile) as [outData|] eqn:Hout.
    + rewrite (run_os_OpenFile_some _ _ _ Hout). discriminate.
    + rewrite (run_os_OpenFile_none _ _ Hout). unfold liftM.
      destruct (composite _ srcImg _) as [canvas|e|msg]; [|discriminate..].
      intros _. unfold png_Encode, writeOut. run_io. now left.
Qed.

(** ** Go's [int] *)

Lemma wrap_id (x : Z) : GoInt.minInt <= x <= GoInt.maxInt -> GoInt.wrap x = x.
Proof.
  unfold GoInt.wrap, GoInt.minInt, GoInt.maxInt.
  change (2 ^ 63) with 9223372036854775808.
  change (2 ^ 64) with 18446744073709551616.
  intros H. rewrite Z.mod_small; lia.
Qed.

Lemma wrap_range (x : Z) : GoInt.minInt <= GoInt.wrap x <= GoInt.maxInt.
Proof.
  unfold GoInt.wrap, GoInt.minInt, GoInt.maxInt.
  change (2 ^ 63) with 9223372036854775808.
  change (2 ^ 64) with 18446744073709551616.
  pose proof (Z.mod_pos_bound (x + 9223372036854775808) 18446744073709551616).
  lia.
Qed.

(** Two exact results that differ by a multiple of [2^64] are the same [int]. *)
Lemma wrap_congr (x y k : Z) : x = y + k * 2 ^ 64 -> GoInt.wrap x = GoInt.wrap y.
Proof.
  intros ->. unfold GoInt.wrap.
  replace (y + k * 2 ^ 64 + 2 ^ 63) with (y + 2 ^ 63 + k * 2 ^ 64) by ring.
  now rewrite Z.mod_add.
Qed.

Lemma wrap_spec (x : Z) : exists k, GoInt.wrap x = x + k * 2 ^ 64.
Proof.
  exists (- ((x + 2 ^ 63) / 2 ^ 64)). unfold GoInt.wrap.
  rewrite Z.mod_eq by discriminate. ring.
Qed.

(** A difference of two [int]s, the second the smaller, that does not come
    out negative is exact. *)
Lemma sub_exact (a b : Z) :
  GoInt.minInt <= a <= GoInt.maxInt -> GoInt.minInt <= b <= GoInt.maxInt ->
  a <= b -> 0 <= GoInt.sub b a -> GoInt.sub b a = b - a.
Proof.
  unfold GoInt.sub, GoInt.wrap, GoInt.minInt, GoInt.maxInt.
  change (2 ^ 63) with 9223372036854775808.
  change (2 ^ 64) with 18446744073709551616.
  intros Ha Hb Hab Hpos.
  destruct (Z_lt_le_dec (b - a) 9223372036854775808) as [Hlt|Hge].
  - rewrite Z.mod_small; lia.
  - exfalso.
    replace (b - a + 9223372036854775808)
      with (b - a - 9223372036854775808 + 1 * 18446744073709551616) in Hpos by ring.
    rewrite Z.mod_add in Hpos by discriminate.
    rewrite Z.mod_small in Hpos; lia.
Qed.

(** ** Rectangles *)

Ltac zbool :=
  repeat match goal with
    | |- context [?a <=? ?b] => destruct (Z.leb_spec a b)
    | |- context [?a <? ?b] => destruct (Z.ltb_spec a b)
    | |- context [?a =? ?b] => destruct (Z.eqb_spec a b)
    | H : context [?a <=? ?b] |- _ => destruct (Z.leb_spec a b)
    | H : context [?a <? ?b] |- _ => destruct (Z.ltb_spec a b)
    | H : context [?a =? ?b] |- _ => destruct (Z.eqb_spec a b)
    end; simpl in *.

Lemma Point_In_spec (x y : Z) (r : Rectangle) :
  Point_In (Pt x y) r = true
  <-> X (Min r) <= x < X (Max r) /\ Y (Min r) <= y < Y (Max r).
Proof. unfold Point_In; simpl. zbool; split; intros; try discriminate; try lia; reflexivity. Qed.

Lemma Point_In_false (x y : Z) (r : Rectangle) :
  Point_In (Pt x y) r = false
  <-> ~ (X (Min r) <= x < X (Max r) /\ Y (Min r) <= y < Y (Max r)).
Proof. rewrite <- Point_In_spec. destruct (Point_In (Pt x y) r); split; intuition congruence. Qed.



Lemma ite_max (a b : Z) : (if a <? b then b else a) = Z.max a b.
Proof. destruct (Z.ltb_spec a b); lia. Qed.

Lemma ite_min (a b : Z) : (if b <? a then b else a) = Z.min a b.
Proof. destruct (Z.ltb_spec b a); lia. Qed.

Lemma Empty_spec (r : Rectangle) :
  Empty r = true <-> X (Max r) <= X (Min r) \/ Y (Max r) <= Y (Min r).
Proof. unfold Empty. rewrite orb_true_iff, !Z.leb_le. tauto. Qed.

Lemma Empty_false (r : Rectangle) :
  Empty r = false <-> X (Min r) < X (Max r) /\ Y (Min r) < Y (Max r).
Proof. unfold Empty. rewrite orb_false_iff, !Z.leb_gt. tauto. Qed.

Lemma Empty_no_point (x y : Z) (r : Rectangle) :
  Empty r = true -> Point_In (Pt x y) r = false.
Proof.
  intros H. apply Empty_spec in H. apply Point_In_false. lia.
Qed.

Lemma Intersect_cases (r s : Rectangle) :
  let r' := Rectangle_ (Pt (Z.max (X (Min r)) (X (Min s))) (Z.max (Y (Min r)) (Y (Min s))))
                       (Pt (Z.min (X (Max r)) (X (Max s))) (Z.min (Y (Max r)) (Y (Max s)))) in
  (Empty r' = true /\ Intersect r s = ZR) \/ (Empty r' = false /\ Intersect r s = r').
Proof.
  unfold Intersect. rewrite !ite_max, !ite_min. cbv zeta.
  match goal with |- context [Empty ?r'] => destruct (Empty r') end; [left|right]; now split.
Qed.

Lemma Intersect_In (x y : Z) (r s : Rectangle) :
  Point_In (Pt x y) (Intersect r s) = Point_In (Pt x y) r && Point_In (Pt x y) s.
Proof.
  apply eq_true_iff_eq. rewrite andb_true_iff, !Point_In_spec.
  destruct (Intersect_cases r s) as [[He ->]|[He ->]]; simpl.
  - apply Empty_spec in He. simpl in He. lia.
  - lia.
Qed.

Lemma Rect_canonical (x0 y0 x1 y1 : Z) :
  X (Min (Rect x0 y0 x1 y1)) <= X (Max (Rect x0 y0 x1 y1))
  /\ Y (Min (Rect x0 y0 x1 y1)) <= Y (Max (Rect x0 y0 x1 y1)).
Proof. unfold Rect. zbool; lia. Qed.

(** ** Canvases *)


Lemma PixOffset_bound (m : RGBAImage) (x y : Z) :
  wfRGBA m -> Point_In (Pt x y) (RGBARect m) = true ->
  0 <= PixOffset m x y
  /\ (Z.to_nat (PixOffset m x y) < length (Pix m))%nat.
Proof.
  intros (Hs & Hs0 & Hh & Hlen) Hin. apply Point_In_spec in Hin as [Hx Hy].
  unfold PixOffset. rewrite Hlen.
  set (S := Stride m) in *. set (dy := y - Y (Min (RGBARect m))).
  set (dx := x - X (Min (RGBARect m))).
  set (H := Y (Max (RGBARect m)) - Y (Min (RGBARect m))) in *.
  assert (0 <= dx < S) by (subst dx S; lia).
  assert (0 <= dy < H) by (subst dy H; lia).
  assert (0 <= dy * S) by nia.
  assert (dy * S + dx < S * H) by nia.
  lia.
Qed.

Lemma PixOffset_inj (m : RGBAImage) (x y x' y' : Z) :
  wfRGBA m -> Point_In (Pt x y) (RGBARect m) = true ->
  Point_In (Pt x' y') (RGBARect m) = true ->
  PixOffset m x y = PixOffset m x' y' -> x = x' /\ y = y'.
Proof.
  intros (Hs & Hs0 & Hh & Hlen) Hin Hin'.
  apply Point_In_spec in Hin as [Hx Hy]. apply Point_In_spec in Hin' as [Hx' Hy'].
  unfold PixOffset. set (S := Stride m) in *. intros Heq.
  assert (y = y') as ->.
  { destruct (Z.lt_trichotomy y y') as [Hlt|[Heq'|Hgt]]; [exfalso|assumption|exfalso].
    - assert ((y' - y) * S <= x - x') by nia.
      assert (S <= (y' - y) * S) by nia. lia.
    - assert ((y - y') * S <= x' - x) by nia.
      assert (S <= (y - y') * S) by nia. lia. }
  split; [lia|reflexivity].
Qed.

Lemma wfRGBA_setPix (m : RGBAImage) (x y : Z) (c : pixel) :
  wfRGBA m -> wfRGBA (setPix m x y c).
Proof.
  unfold wfRGBA, setPix; cbn [Pix Stride RGBARect]. rewrite length_insert. exact (fun H => H).
Qed.

Lemma RGBAAt_setPix (m : RGBAImage) (x y : Z) (c : pixel) (x' y' : Z) :
  wfRGBA m -> Point_In (Pt x y) (RGBARect m) = true ->
  RGBAAt (setPix m x y c) x' y'
  = if (x' =? x) && (y' =? y) then c else RGBAAt m x' y'.
Proof.
  intros Hwf Hin. unfold RGBAAt. simpl.
  destruct (Point_In (Pt x' y') (RGBARect m)) eqn:Hin'.
  - change (PixOffset (setPix m x y c) x' y') with (PixOffset m x' y').
    destruct (Z.eqb_spec x' x) as [->|Hx]; simpl.
    + destruct (Z.eqb_spec y' y) as [->|Hy]; simpl.
      * rewrite list_lookup_insert_eq; [reflexivity|].
        apply (PixOffset_bound m x y Hwf Hin).
      * rewrite list_lookup_insert_ne; [reflexivity|].
        intros Heq. apply Hy.
        pose proof (PixOffset_bound m x y Hwf Hin) as [? _].
        pose proof (PixOffset_bound m x y' Hwf Hin') as [? _].
        apply (PixOffset_inj m x y' x y Hwf Hin' Hin). lia.
    + rewrite list_lookup_insert_ne; [reflexivity|].
      intros Heq. apply Hx.
      pose proof (PixOffset_bound m x y Hwf Hin) as [? _].
      pose proof (PixOffset_bound m x' y' Hwf Hin') as [? _].
      apply (PixOffset_inj m x' y' x y Hwf Hin' Hin). lia.
  - destruct (Z.eqb_spec x' x) as [->|Hx]; simpl; [|reflexivity].
    destruct (Z.eqb_spec y' y) as [->|Hy]; simpl; [congruence|reflexivity].
Qed.

(** ** Loops *)

Lemma forRange_inv {St : Type} (P : Z -> St -> Prop) (body : Z -> St -> St) :
  forall (n : nat) (lo : Z) (s : St),
    P lo s ->
    (forall i t, lo <= i < lo + Z.of_nat n -> P i t -> P (i + 1) (body i t)) ->
    P (lo + Z.of_nat n) (forRange lo n body s).
Proof.
  induction n as [|n IH]; intros lo s Hinit Hstep.
  - simpl. now rewrite Z.add_0_r.
  - rewrite Nat2Z.inj_succ in *. simpl forRange.
    replace (lo + Z.succ (Z.of_nat n)) with (lo + 1 + Z.of_nat n) by lia.
    apply IH.
    + apply Hstep; [lia|assumption].
    + intros i t Hi. apply Hstep. lia.
Qed.

(** ** Drawing *)


(** [drawRGBA] changes the pixels of [r], each from its old value and the
    source pixel that faces it, and no other pixel. *)
Lemma drawRGBA_spec (m : RGBAImage) (r : Rectangle) (src : Image) (sp : Point) (op : Op) :
  wfRGBA m -> within r (RGBARect m) ->
  wfRGBA (drawRGBA m r src sp op)
  /\ RGBARect (drawRGBA m r src sp op) = RGBARect m
  /\ forall x y,
       RGBAAt (drawRGBA m r src sp op) x y
       = if Point_In (Pt x y) r
         then blend op (RGBAAt m x y)
                (At src (X (sourcePoint r sp x y)) (Y (sourcePoint r sp x y)))
         else RGBAAt m x y.
Proof.
  intros Hwf (Hx0 & Hx1 & Hy0 & Hy1). unfold drawRGBA.
  set (newPixel := fun x y =>
         blend op (RGBAAt m x y)
           (At src (X (sourcePoint r sp x y)) (Y (sourcePoint r sp x y)))).
  set (rows := Z.to_nat (Y (Max r) - Y (Min r))).
  set (cols := Z.to_nat (X (Max r) - X (Min r))).
  set (row := fun (y : Z) (dst : RGBAImage) => forRange (X (Min r)) cols _ dst).
  pose (P := fun (j : Z) (t : RGBAImage) =>
    wfRGBA t /\ RGBARect t = RGBARect m
    /\ forall x y,
         RGBAAt t x y
         = if (Y (Min r) <=? y) && (y <? j) && (X (Min r) <=? x) && (x <? X (Max r))
           then newPixel x y else RGBAAt m x y).
  assert (P (Y (Min r) + Z.of_nat rows) (forRange (Y (Min r)) rows row m)) as HP.
  { apply forRange_inv.
    - split; [assumption|]. split; [reflexivity|]. intros x y. zbool; try reflexivity; lia.
    - intros j t Hj (Hwft & Hrt & Hat). subst row. cbv beta.
      pose (Q := fun (i : Z) (u : RGBAImage) =>
        wfRGBA u /\ RGBARect u = RGBARect m
        /\ forall x y,
             RGBAAt u x y
             = if (y =? j) && (X (Min r) <=? x) && (x <? i)
               then newPixel x y else RGBAAt t x y).
      match goal with
      | |- P _ (forRange _ _ ?body _) =>
          assert (Q (X (Min r) + Z.of_nat cols) (forRange (X (Min r)) cols body t)) as HQ
      end.
      { apply forRange_inv.
        - split; [assumption|]. split; [assumption|]. intros x y. zbool; try reflexivity; lia.
        - intros i u Hi (Hwfu & Hru & Hau).
          assert (Point_In (Pt i j) (RGBARect u) = true) as Hin.
          { apply Point_In_spec. rewrite Hru. subst rows cols. lia. }
          split; [now apply wfRGBA_setPix|]. split; [exact Hru|].
          intros x y. rewrite (RGBAAt_setPix u i j _ x y Hwfu Hin).
          rewrite (Hau i j), (Hat i j), (Hau x y).
          unfold sourcePoint in newPixel. subst newPixel. cbv beta. simpl.
          zbool; subst; try reflexivity; lia. }
      destruct HQ as (Hwfq & Hrq & Haq).
      split; [assumption|]. split; [assumption|].
      intros x y. rewrite (Haq x y), (Hat x y).
      subst rows cols. zbool; subst; try reflexivity; lia. }
  destruct HP as (Hwf' & Hr' & Hat'). subst row.
  split; [assumption|]. split; [assumption|].
  intros x y. rewrite (Hat' x y). unfold Point_In. simpl.
  subst rows. zbool; try reflexivity; lia.
Qed.

Lemma within_Empty (a b : Rectangle) : within a b -> Empty b = true -> Empty a = true.
Proof. unfold within. rewrite !Empty_spec. lia. Qed.

Lemma Intersect_within (r s : Rectangle) :
  Empty (Intersect r s) = false -> within (Intersect r s) r /\ within (Intersect r s) s.
Proof.
  destruct (Intersect_cases r s) as [[He ->]|[He ->]].
  - discriminate.
  - intros _. unfold within; simpl. lia.
Qed.

(** What [clip] leaves of [r] lies in [r], in the destination and in the
    source as [r] places it. *)
Lemma clip_In (d r sb : Rectangle) (sp : Point) (x y : Z) :
  Point_In (Pt x y) (clip d r sb sp).1
  = Point_In (Pt x y) r && Point_In (Pt x y) d
    && Point_In (Pt x y) (Rectangle_Add sb (Point_Sub (Min r) sp)).
Proof.
  unfold clip.
  match goal with |- context [if ?c then _ else _] => destruct c end; simpl;
    now rewrite !Intersect_In.
Qed.

Lemma clip_within (d r sb : Rectangle) (sp : Point) :
  Empty (clip d r sb sp).1 = false -> within (clip d r sb sp).1 d.
Proof.
  unfold clip.
  set (r1 := Intersect r d). set (r2 := Intersect r1 _).
  assert (Empty r1 = false -> within r1 d) as H1
    by (intros He1; exact (proj2 (Intersect_within r d He1))).
  assert (Empty r2 = false -> within r2 r1) as H2
    by (intros He2; exact (proj1 (Intersect_within r1 _ He2))).
  clearbody r2. clearbody r1.
  assert (Empty r2 = false -> within r2 d) as H.
  { intros He. specialize (H2 He).
    destruct (Empty r1) eqn:He1.
    - rewrite (within_Empty r2 r1 H2 He1) in He. discriminate.
    - specialize (H1 eq_refl). unfold within in *. lia. }
  match goal with |- context [if ?c then _ else _] => destruct c end; exact H.
Qed.

(** [draw.Draw] on a canvas: the pixels of the clipped rectangle change,
    each from its old value and the source pixel that faces it. *)
Lemma Draw_spec (m : RGBAImage) (r : Rectangle) (src : Image) (sp : Point) (op : Op) :
  wfRGBA m ->
  wfRGBA (Draw m r src sp op)
  /\ RGBARect (Draw m r src sp op) = RGBARect m
  /\ forall x y,
       RGBAAt (Draw m r src sp op) x y
       = if Point_In (Pt x y) (clip (RGBARect m) r (Bounds src) sp).1
         then blend op (RGBAAt m x y)
                (At src
                   (X (sourcePoint (clip (RGBARect m) r (Bounds src) sp).1
                                   (clip (RGBARect m) r (Bounds src) sp).2 x y))
                   (Y (sourcePoint (clip (RGBARect m) r (Bounds src) sp).1
                                   (clip (RGBARect m) r (Bounds src) sp).2 x y)))
         else RGBAAt m x y.
Proof.
  intros Hwf. unfold Draw.
  pose proof (clip_within (RGBARect m) r (Bounds src) sp) as Hin.
  destruct (clip (RGBARect m) r (Bounds src) sp) as [r' sp']; simpl in *.
  destruct (Empty r') eqn:He.
  - split; [assumption|]. split; [reflexivity|].
    intros x y. now rewrite (Empty_no_point x y r' He).
  - exact (drawRGBA_spec m r' src sp' op Hwf (Hin eq_refl)).
Qed.

Lemma blend_Src (d : pixel) (c : Color) : blend Src d c = fillPixel c.
Proof. reflexivity. Qed.

Lemma mul3NonNeg_spec (x y z : Z) :
  0 <= mul3NonNeg x y z -> 0 <= x /\ 0 <= y /\ 0 <= z /\ mul3NonNeg x y z = x * y * z.
Proof.
  unfold mul3NonNeg.
  destruct (Z.ltb_spec x 0); simpl; [lia|].
  destruct (Z.ltb_spec y 0); simpl; [lia|].
  destruct (Z.ltb_spec z 0); simpl; [lia|].
  destruct (2 ^ 64 <=? x * y); [lia|].
  destruct (2 ^ 64 <=? x * y * z); [lia|].
  destruct (2 ^ 63 <=? x * y * z); [lia|]. lia.
Qed.


(** A canvas that [NewRGBA] allocates for a well-formed rectangle: it has
    the rectangle's exact width and height, and every pixel is zero. *)
Lemma NewRGBA_spec (r : Rectangle) (m : RGBAImage) :
  NewRGBA r = Ret m ->
  inRangeRect r -> X (Min r) <= X (Max r) -> Y (Min r) <= Y (Max r) ->
  wfRGBA m /\ RGBARect m = r
  /\ Dx r = X (Max r) - X (Min r) /\ Dy r = Y (Max r) - Y (Min r)
  /\ forall x y, RGBAAt m x y = Px 0 0 0 0.
Proof.
  unfold NewRGBA. intros Hnew [[Hx0 Hx1] [Hy0 Hy1]] Hx Hy.
  destruct (Z.ltb_spec (mul3NonNeg 4 (Dx r) (Dy r)) 0) as [|Hpos]; [discriminate|].
  injection Hnew as <-.
  destruct (mul3NonNeg_spec _ _ _ Hpos) as (_ & Hdx & Hdy & ->).
  assert (Dx r = X (Max r) - X (Min r)) as HDx by (now apply sub_exact).
  assert (Dy r = Y (Max r) - Y (Min r)) as HDy by (now apply sub_exact).
  replace (4 * Dx r * Dy r) with (Dx r * Dy r * 4) by ring.
  rewrite Z.div_mul by discriminate.
  split; [|split; [reflexivity|split; [assumption|split; [assumption|]]]].
  - unfold wfRGBA; simpl. rewrite length_replicate, <- HDx, <- HDy. lia.
  - intros x y. unfold RGBAAt; simpl.
    destruct (Point_In (Pt x y) r); [|reflexivity].
    destruct (replicate _ _ !! _) as [p|] eqn:Hp; [|reflexivity].
    apply lookup_replicate in Hp as [-> _]. reflexivity.
Qed.

Lemma canvasRect_inRange (bounds : Rectangle) (pad : Padding.t) :
  inRangeRect (canvasRect bounds pad).
Proof.
  unfold canvasRect, inRangeRect, Rect, GoInt.add.
  set (W := GoInt.wrap (GoInt.wrap _ + Padding.left pad)).
  set (H := GoInt.wrap (GoInt.wrap _ + Padding.bottom pad)).
  pose proof (wrap_range (GoInt.wrap (Dx bounds + Padding.right pad) + Padding.left pad)).
  pose proof (wrap_range (GoInt.wrap (Dy bounds + Padding.top pad) + Padding.bottom pad)).
  fold W in H0. fold H in H1.
  unfold GoInt.minInt, GoInt.maxInt in *.
  change (2 ^ 63) with 9223372036854775808 in *.
  destruct (W <? 0), (H <? 0); simpl; lia.
Qed.

(** ** The compositing steps *)

Lemma wrap_add_l (a b : Z) : GoInt.wrap (GoInt.wrap a + b) = GoInt.wrap (a + b).
Proof.
  destruct (wrap_spec a) as [k Hk]. rewrite Hk.
  apply (wrap_congr _ _ k). ring.
Qed.

(** [clip] moves the source point along with the rectangle: the source
    pixel that faces a destination pixel is the same before and after. *)
Lemma clip_sourcePoint (d r sb : Rectangle) (sp : Point) (x y : Z) :
  sourcePoint (clip d r sb sp).1 (clip d r sb sp).2 x y = sourcePoint r sp x y.
Proof.
  unfold clip.
  set (r' := Intersect (Intersect r d) _).
  unfold sourcePoint, GoInt.add, GoInt.sub.
  destruct (wrap_spec (X (Min r') - X (Min r))) as [kx Hkx].
  destruct (wrap_spec (Y (Min r') - Y (Min r))) as [ky Hky].
  destruct ((GoInt.wrap (X (Min r') - X (Min r)) =? 0)
            && (GoInt.wrap (Y (Min r') - Y (Min r)) =? 0)) eqn:Hz; simpl.
  - apply andb_true_iff in Hz as [Hx Hy].
    apply Z.eqb_eq in Hx, Hy. rewrite Hx in Hkx. rewrite Hy in Hky.
    f_equal; [apply (wrap_congr _ _ kx)|apply (wrap_congr _ _ ky)]; lia.
  - rewrite Hkx, Hky.
    destruct (wrap_spec (X sp + (X (Min r') - X (Min r) + kx * 2 ^ 64))) as [jx Hjx].
    destruct (wrap_spec (Y sp + (Y (Min r') - Y (Min r) + ky * 2 ^ 64))) as [jy Hjy].
    rewrite Hjx, Hjy.
    f_equal; [apply (wrap_congr _ _ (kx + jx))|apply (wrap_congr _ _ (ky + jy))]; ring.
Qed.

Lemma wrap_shift_back (c a b : Z) :
  GoInt.wrap (c + GoInt.wrap (GoInt.wrap (a + b) - a)) = GoInt.wrap (c + b).
Proof.
  destruct (wrap_spec (GoInt.wrap (a + b) - a)) as [j Hj]. rewrite Hj.
  destruct (wrap_spec (a + b)) as [k Hk]. rewrite Hk.
  apply (wrap_congr _ _ (k + j)). ring.
Qed.

(** The source rectangle moved by the offset is what [clip] compares with
    the source bounds: that cut takes nothing away. *)
Lemma source_rectangle_self (b : Rectangle) (off : Point) :
  Rectangle_Add b (Point_Sub (Min (Rectangle_Add b off)) (Min b)) = Rectangle_Add b off.
Proof.
  destruct b as [[x0 y0] [x1 y1]], off as [ox oy].
  unfold Rectangle_Add, Point_Sub, Point_Add, GoInt.add, GoInt.sub; simpl.
  now rewrite !wrap_shift_back.
Qed.

(** The source pixel that the draw step puts at [(x, y)] lies the offset
    to the left of and above it. *)
Lemma drawSource_sourcePoint (b : Rectangle) (off : Point) (x y : Z) :
  sourcePoint (Rectangle_Add b off) (Min b) x y
  = Pt (GoInt.sub x (X off)) (GoInt.sub y (Y off)).
Proof.
  destruct b as [[x0 y0] [x1 y1]], off as [ox oy].
  unfold sourcePoint, Rectangle_Add, Point_Add, GoInt.add, GoInt.sub; simpl.
  destruct (wrap_spec (x0 + ox)) as [kx Hkx]. destruct (wrap_spec (y0 + oy)) as [ky Hky].
  rewrite Hkx, Hky.
  f_equal; [apply (wrap_congr _ _ (- kx))|apply (wrap_congr _ _ (- ky))]; ring.
Qed.

(** [composite] is the allocation followed by the two calls of [draw.Draw]. *)
Lemma composite_steps (fill : Color) (srcImg : Image) (pad : Padding.t) (canvas : RGBAImage) :
  composite fill srcImg pad = Ret canvas ->
  exists destImg,
    NewRGBA (canvasRect (Bounds srcImg) pad) = Ret destImg
    /\ canvas = drawSource (fillCanvas destImg (canvasRect (Bounds srcImg) pad) fill srcImg)
                           srcImg pad.
Proof.
  unfold composite.
  destruct (NewRGBA (canvasRect (Bounds srcImg) pad)) as [destImg|e|msg];
    cbn [bindR]; intros Hc; try discriminate.
  injection Hc as <-. exists destImg. now split.
Qed.

Lemma canvasRect_canonical (bounds : Rectangle) (pad : Padding.t) :
  X (Min (canvasRect bounds pad)) <= X (Max (canvasRect bounds pad))
  /\ Y (Min (canvasRect bounds pad)) <= Y (Max (canvasRect bounds pad)).
Proof. unfold canvasRect. apply Rect_canonical. Qed.

(** The canvas after the fill step. *)
Lemma fillCanvas_spec (destImg : RGBAImage) (cr : Rectangle) (fill : Color) (srcImg : Image) :
  wfRGBA destImg -> RGBARect destImg = cr ->
  (forall x y, RGBAAt destImg x y = Px 0 0 0 0) ->
  wfRGBA (fillCanvas destImg cr fill srcImg)
  /\ RGBARect (fillCanvas destImg cr fill srcImg) = cr
  /\ forall x y,
       RGBAAt (fillCanvas destImg cr fill srcImg) x y
       = if Point_In (Pt x y) (clip cr cr (Bounds (NewUniform fill)) (Min (Bounds srcImg))).1
         then fillPixel fill else Px 0 0 0 0.
Proof.
  intros Hwf Hr Hzero. unfold fillCanvas.
  destruct (Draw_spec destImg cr (NewUniform fill) (Min (Bounds srcImg)) Src Hwf)
    as (Hwf1 & Hr1 & Hat1).
  split; [exact Hwf1|]. split; [now rewrite Hr1|].
  intros x y. rewrite (Hat1 x y), Hr, Hzero.
  destruct (Point_In _ _); [apply blend_Src|reflexivity].
Qed.

(** The canvas after the draw step. *)
Lemma drawSource_spec (filled : RGBAImage) (srcImg : Image) (pad : Padding.t) :
  wfRGBA filled ->
  wfRGBA (drawSource filled srcImg pad)
  /\ RGBARect (drawSource filled srcImg pad) = RGBARect filled
  /\ forall x y,
       RGBAAt (drawSource filled srcImg pad) x y
       = if Point_In (Pt x y) (RGBARect filled)
            && Point_In (Pt x y)
                 (Rectangle_Add (Bounds srcImg) (Pt (Padding.left pad) (Padding.top pad)))
         then blend Over (RGBAAt filled x y)
                (At srcImg (GoInt.sub x (Padding.left pad)) (GoInt.sub y (Padding.top pad)))
         else RGBAAt filled x y.
Proof.
  intros Hwf. unfold drawSource. cbv zeta.
  destruct (Draw_spec filled
              (Rectangle_Add (Bounds srcImg) (Pt (Padding.left pad) (Padding.top pad)))
              srcImg (Min (Bounds srcImg)) Over Hwf) as (Hwf2 & Hr2 & Hat2).
  split; [exact Hwf2|]. split; [exact Hr2|].
  intros x y. rewrite (Hat2 x y), clip_In, clip_sourcePoint, source_rectangle_self.
  rewrite drawSource_sourcePoint. cbn [X Y].
  generalize (Point_In (Pt x y) (RGBARect filled)).
  generalize (Point_In (Pt x y)
                (Rectangle_Add (Bounds srcImg) (Pt (Padding.left pad) (Padding.top pad)))).
  intros [] []; reflexivity.
Qed.

(** The canvas of a conversion, pixel by pixel: the fill where the
    uniform image reaches and zero elsewhere, and over it the source
    where the source rectangle, moved by the offset, meets the canvas. *)
Lemma composite_spec (fill : Color) (srcImg : Image) (pad : Padding.t) (canvas : RGBAImage) :
  composite fill srcImg pad = Ret canvas ->
  let cr := canvasRect (Bounds srcImg) pad in
  let offset := Pt (Padding.left pad) (Padding.top pad) in
  let fr := (clip cr cr (Bounds (NewUniform fill)) (Min (Bounds srcImg))).1 in
  (exists destImg,
      NewRGBA cr = Ret destImg
      /\ canvas = drawSource (fillCanvas destImg cr fill srcImg) srcImg pad
      /\ forall x y,
           RGBAAt (fillCanvas destImg cr fill srcImg) x y
           = if Point_In (Pt x y) fr then fillPixel fill else Px 0 0 0 0)
  /\ wfRGBA canvas /\ RGBARect canvas = cr
  /\ Dx cr = X (Max cr) - X (Min cr) /\ Dy cr = Y (Max cr) - Y (Min cr)
  /\ forall x y,
       RGBAAt canvas x y
       = if Point_In (Pt x y) cr && Point_In (Pt x y) (Rectangle_Add (Bounds srcImg) offset)
         then blend Over (if Point_In (Pt x y) fr then fillPixel fill else Px 0 0 0 0)
                (At srcImg (GoInt.sub x (Padding.left pad)) (GoInt.sub y (Padding.top pad)))
         else if Point_In (Pt x y) fr then fillPixel fill else Px 0 0 0 0.
Proof.
  intros Hc. cbv zeta.
  destruct (composite_steps fill srcImg pad canvas Hc) as (destImg & Hnew & ->).
  destruct (canvasRect_canonical (Bounds srcImg) pad) as [Hcx Hcy].
  destruct (NewRGBA_spec _ destImg Hnew (canvasRect_inRange _ _) Hcx Hcy)
    as (Hwf0 & Hr0 & HDx & HDy & Hzero).
  destruct (fillCanvas_spec destImg _ fill srcImg Hwf0 Hr0 Hzero) as (Hwf1 & Hr1 & Hat1).
  destruct (drawSource_spec _ srcImg pad Hwf1) as (Hwf2 & Hr2 & Hat2).
  split; [exists destImg; split; [exact Hnew|split; [reflexivity|exact Hat1]]|].
  split; [exact Hwf2|]. split; [now rewrite Hr2, Hr1|].
  split; [exact HDx|]. split; [exact HDy|].
  intros x y. rewrite (Hat2 x y), Hr1, !Hat1. reflexivity.
Qed.


Lemma fill_reaches (fill : Color) (srcImg : Image) (cr : Rectangle) (x y : Z) :
  inRangeRect cr ->
  Dx cr = X (Max cr) - X (Min cr) -> Dy cr = Y (Max cr) - Y (Min cr) ->
  0 <= Dx cr -> 0 <= Dy cr ->
  -2 ^ 62 <= X (Min cr) <= 0 -> -2 ^ 62 <= Y (Min cr) <= 0 ->
  withinUniform srcImg cr ->
  Point_In (Pt x y) (clip cr cr (Bounds (NewUniform fill)) (Min (Bounds srcImg))).1
  = Point_In (Pt x y) cr.
Proof.
  intros [[Hx0 Hx1] [Hy0 Hy1]] HDx HDy HDx0 HDy0 Hox Hoy [[Hmx HWx] [Hmy HWy]].
  rewrite clip_In. unfold NewUniform; simpl.
  destruct (Point_In (Pt x y) cr) eqn:Hin; [simpl|reflexivity].
  apply Point_In_spec in Hin as [Hx Hy]. apply Point_In_spec.
  unfold Rectangle_Add, Point_Sub, Point_Add, GoInt.add, GoInt.sub; simpl.
  unfold GoInt.minInt, GoInt.maxInt in *.
  change (2 ^ 62) with 4611686018427387904 in *.
  change (2 ^ 63) with 9223372036854775808 in *.
  assert (forall v, -9223372036854775808 <= v <= 9223372036854775808 - 1 -> GoInt.wrap v = v)
    as Hid by (intros v Hv; apply wrap_id; unfold GoInt.minInt, GoInt.maxInt;
               change (2 ^ 63) with 9223372036854775808; exact Hv).
  rewrite (Hid (X (Min cr) - X (Min (Bounds srcImg)))) by lia.
  rewrite (Hid (Y (Min cr) - Y (Min (Bounds srcImg)))) by lia.
  rewrite !Hid by lia. lia.
Qed.

Lemma canvasRect_origin (bounds : Rectangle) (pad : Padding.t) :
  X (Min (canvasRect bounds pad)) <= 0 /\ Y (Min (canvasRect bounds pad)) <= 0
  /\ 0 <= X (Max (canvasRect bounds pad)) /\ 0 <= Y (Max (canvasRect bounds pad)).
Proof. unfold canvasRect, Rect. zbool; lia. Qed.

Lemma NewRGBA_small (r : Rectangle) (m : RGBAImage) :
  NewRGBA r = Ret m -> 0 <= Dx r < 2 ^ 62 /\ 0 <= Dy r.
Proof.
  unfold NewRGBA, mul3NonNeg. intros H.
  destruct (Z.ltb_spec 4 0); [lia|].
  destruct (Z.ltb_spec (Dx r) 0); simpl in H; [discriminate|].
  destruct (Z.ltb_spec (Dy r) 0); simpl in H; [discriminate|].
  destruct (Z.leb_spec (2 ^ 64) (4 * Dx r)); simpl in H; [discriminate|].
  change (2 ^ 64) with 18446744073709551616 in *.
  change (2 ^ 62) with 4611686018427387904. lia.
Qed.

(** Where the fill of a conversion reaches when the canvas lies within
    the uniform image: the whole canvas. *)
Lemma composite_fill_region
  (fill : Color) (srcImg : Image) (pad : Padding.t) (canvas : RGBAImage) (x y : Z) :
  composite fill srcImg pad = Ret canvas ->
  withinUniform srcImg (canvasRect (Bounds srcImg) pad) ->
  Point_In (Pt x y)
    (clip (canvasRect (Bounds srcImg) pad) (canvasRect (Bounds srcImg) pad)
          (Bounds (NewUniform fill)) (Min (Bounds srcImg))).1
  = Point_In (Pt x y) (canvasRect (Bounds srcImg) pad).
Proof.
  intros Hc Hu.
  destruct (composite_spec fill srcImg pad canvas Hc)
    as ((destImg & Hnew & _ & _) & _ & _ & HDx & HDy & _).
  destruct (NewRGBA_small _ _ Hnew) as [[HDx0 HDx1] HDy0].
  destruct (canvasRect_origin (Bounds srcImg) pad) as (Hox & Hoy & Hmx & Hmy).
  apply fill_reaches; try assumption; try lia.
  - apply canvasRect_inRange.
  - destruct Hu as [_ [? ?]].
    change (2 ^ 62) with 4611686018427387904 in *. lia.
Qed.

(** C6, as the code has it.  In both conversions (the fill is any
    colour) the canvas is [image.Rect(0, 0, W, H)] for the sums
    [W = source width + padding.left + padding.right] and
    [H = source height + padding.top + padding.bottom]: it has width [W]
    and height [H] when the sums are not negative (and fit an [int]),
    whatever the sign of each padding; a negative sum makes [image.Rect]
    swap the corners, and the canvas has the size [-W] or [-H]. *)
Theorem canvas_size
  (fill : Color) (srcImg : Image) (pad : Padding.t) (canvas : RGBAImage) :
  composite fill srcImg pad = Ret canvas ->
  let W := Dx (Bounds srcImg) + Padding.left pad + Padding.right pad in
  let H := Dy (Bounds srcImg) + Padding.top pad + Padding.bottom pad in
  (0 <= W <= GoInt.maxInt -> Dx (RGBARect canvas) = W
     /\ X (Min (RGBARect canvas)) = 0 /\ X (Max (RGBARect canvas)) = W)
  /\ (0 <= H <= GoInt.maxInt -> Dy (RGBARect canvas) = H
     /\ Y (Min (RGBARect canvas)) = 0 /\ Y (Max (RGBARect canvas)) = H)
  /\ (GoInt.minInt <= W < 0 -> Dx (RGBARect canvas) = - W
     /\ X (Min (RGBARect canvas)) = W /\ X (Max (RGBARect canvas)) = 0)
  /\ (GoInt.minInt <= H < 0 -> Dy (RGBARect canvas) = - H
     /\ Y (Min (RGBARect canvas)) = H /\ Y (Max (RGBARect canvas)) = 0).
Proof.
  intros Hc W H.
  destruct (composite_spec fill srcImg pad canvas Hc) as (_ & _ & Hr & HDx & HDy & _).
  rewrite Hr, HDx, HDy. clear Hr HDx HDy Hc.
  unfold canvasRect, GoInt.add.
  rewrite !wrap_add_l.
  replace (Dx (Bounds srcImg) + Padding.right pad + Padding.left pad) with W by (subst W; ring).
  fold H. unfold Rect, GoInt.minInt, GoInt.maxInt.
  change (2 ^ 63) with 9223372036854775808.
  assert (forall v, -9223372036854775808 <= v <= 9223372036854775808 - 1 -> GoInt.wrap v = v)
    as Hid by (intros v Hv; apply wrap_id; unfold GoInt.minInt, GoInt.maxInt;
               change (2 ^ 63) with 9223372036854775808; exact Hv).
  split; [|split; [|split]]; intros HW;
    rewrite ?(Hid W) by lia; rewrite ?(Hid H) by lia; cbn [X Y Min Max];
    repeat match goal with
      | |- context [?a <? ?b] => destruct (Z.ltb_spec a b)
      end; cbn [X Y Min Max fst snd]; try lia;
    unfold Dx, Dy, GoInt.sub; cbn [X Y Min Max];
    rewrite ?Hid by lia; lia.
Qed.

(** C4, as the code has it.  For a canvas that lies within the uniform
    image of the fill (a billion pixels each way from the origin): the
    fill step stores the fill colour at every point of the canvas; after
    the draw step a point outside the source rectangle, moved by
    (padding.left, padding.top), still holds the fill colour; and a point
    inside holds the source pixel the offset to the left of and above it,
    blended "over" the fill colour. *)
Theorem composite_fill_then_draw
  (fill : Color) (srcImg : Image) (pad : Padding.t) (canvas : RGBAImage) (x y : Z) :
  composite fill srcImg pad = Ret canvas ->
  withinUniform srcImg (RGBARect canvas) ->
  Point_In (Pt x y) (RGBARect canvas) = true ->
  let cr := canvasRect (Bounds srcImg) pad in
  let moved := Rectangle_Add (Bounds srcImg) (Pt (Padding.left pad) (Padding.top pad)) in
  (exists destImg,
      NewRGBA cr = Ret destImg
      /\ canvas = drawSource (fillCanvas destImg cr fill srcImg) srcImg pad
      /\ RGBAAt (fillCanvas destImg cr fill srcImg) x y = fillPixel fill)
  /\ (Point_In (Pt x y) moved = false -> RGBAAt canvas x y = fillPixel fill)
  /\ (Point_In (Pt x y) moved = true ->
      RGBAAt canvas x y
      = blend Over (fillPixel fill)
          (At srcImg (GoInt.sub x (Padding.left pad)) (GoInt.sub y (Padding.top pad)))).
Proof.
  intros Hc Hu Hin. cbv zeta.
  destruct (composite_spec fill srcImg pad canvas Hc)
    as ((destImg & Hnew & Hcanvas & Hfill) & _ & Hr & _ & _ & Hat).
  rewrite Hr in Hu, Hin.
  pose proof (composite_fill_region fill srcImg pad canvas x y Hc Hu) as Hreach.
  rewrite Hin in Hreach.
  split; [|split].
  - exists destImg. split; [exact Hnew|]. split; [exact Hcanvas|].
    rewrite (Hfill x y). now rewrite Hreach.
  - intros Hout. rewrite (Hat x y). now rewrite Hin, Hout, Hreach.
  - intros Hmoved. rewrite (Hat x y). now rewrite Hin, Hmoved, Hreach.
Qed.

(** ** The two conversions, end to end *)

(** Creating the output file and encoding into it: the file holds what
    the encoder wrote, and the result is the encoder's. *)
Lemma run_create_and_write (outputFile : string) (w : World)
  (out : list byte * option error) :
  files w !! outputFile = None ->
  files (bindM (os_OpenFile_excl outputFile) (fun outFile => writeOut outFile out) w).1
  = <[outputFile := out.1]> (files w)
  /\ (bindM (os_OpenFile_excl outputFile) (fun outFile => writeOut outFile out) w).2
     = match out.2 with Some e => Fail e | None => Ret tt end.
Proof.
  intros Hnone. unfold bindM. rewrite (run_os_OpenFile_none _ _ Hnone).
  unfold writeOut. run_io.
  rewrite lookup_insert_eq. cbn [default from_option id app].
  rewrite insert_insert_eq. now split.
Qed.

Lemma alpha16_opaque (c : Color) : alpha16 c = 65535 -> pxA (fillPixel c) = 255.
Proof.
  unfold alpha16, fillPixel, blend.
  destruct (Color_RGBA c) as [[[sr sg] sb] sa]. cbn [snd pxA]. intros ->. reflexivity.
Qed.

(** X14.  From PNG to JPEG, with the input decoded, the canvas allocated
    and no file at the output path: a canvas within the uniform image is
    filled, at every point, with the configured colour as [Src] stores
    it, and this fill is opaque (alpha 255) when the configured colour
    is; the output file then holds what the JPEG encoder writes for the
    canvas at quality 50, and the conversion ends as the encoder did,
    unless a side of the canvas is 65536 or more, which [jpeg.Encode]
    refuses. *)
Theorem convertPNGToJPEG_fill_and_quality
  (inputFile outputFile : string) (config : Config) (w : World)
  (data : list byte) (srcImg : Image) (destImg : RGBAImage) :
  files w !! inputFile = Some data -> pngDecode data = inr srcImg ->
  NewRGBA (canvasRect (Bounds srcImg) (padding config)) = Ret destImg ->
  files w !! outputFile = None ->
  let cr := canvasRect (Bounds srcImg) (padding config) in
  let filled := fillCanvas destImg cr (bgColor config) srcImg in
  let canvas := drawSource filled srcImg (padding config) in
  (withinUniform srcImg cr ->
   forall x y, Point_In (Pt x y) cr = true -> RGBAAt filled x y = fillPixel (bgColor config))
  /\ (alpha16 (bgColor config) = 65535 -> pxA (fillPixel (bgColor config)) = 255)
  /\ (Dx cr < 65536 -> Dy cr < 65536 ->
      files (convertPNGToJPEG inputFile outputFile config w).1
      = <[outputFile := (jpegEncodeBody canvas 50).1]> (files w)
      /\ (convertPNGToJPEG inputFile outputFile config w).2
         = match (jpegEncodeBody canvas 50).2 with Some e => Fail e | None => Ret tt end)
  /\ (65536 <= Dx cr \/ 65536 <= Dy cr ->
      (convertPNGToJPEG inputFile outputFile config w).2
      = Fail (CodecError "jpeg" "image is too large to encode")).
Proof.
  intros Hin Hdec Hnew Hout. cbv zeta.
  assert (composite (bgColor config) srcImg (padding config)
          = Ret (drawSource (fillCanvas destImg (canvasRect (Bounds srcImg) (padding config))
                               (bgColor config) srcImg) srcImg (padding config))) as Hc.
  { unfold composite. rewrite Hnew. reflexivity. }
  destruct (composite_spec _ _ _ _ Hc)
    as ((destImg' & Hnew' & _ & Hfill) & _ & Hr & _ & _ & _).
  rewrite Hnew in Hnew'. injection Hnew' as <-.
  split; [|split; [exact (alpha16_opaque _)|split]].
  - intros Hu x y Hp. rewrite (Hfill x y).
    now rewrite (composite_fill_region _ _ _ _ x y Hc Hu), Hp.
  - intros HDx HDy. rewrite convertPNGToJPEG_run, Hin, Hdec, Hc.
    unfold jpeg_Encode. rewrite Hr.
    destruct (Z.leb_spec 65536 (Dx (canvasRect (Bounds srcImg) (padding config)))); [lia|].
    destruct (Z.leb_spec 65536 (Dy (canvasRect (Bounds srcImg) (padding config)))); [lia|].
    cbn [orb]. exact (run_create_and_write outputFile (afterInput inputFile w) _ Hout).
  - intros Hbig. rewrite convertPNGToJPEG_run, Hin, Hdec, Hc.
    unfold bindM. rewrite (run_os_OpenFile_none outputFile (afterInput inputFile w) Hout).
    unfold jpeg_Encode. rewrite Hr.
    destruct (Z.leb_spec 65536 (Dx (canvasRect (Bounds srcImg) (padding config))));
      [reflexivity|].
    destruct (Z.leb_spec 65536 (Dy (canvasRect (Bounds srcImg) (padding config))));
      [reflexivity|lia].
Qed.

(** With a transparent fill every pixel of the canvas that the source
    does not cover is zero, whether the fill reached it or not. *)
Lemma composite_transparent_outside
  (srcImg : Image) (pad : Padding.t) (canvas : RGBAImage) (x y : Z) :
  composite Transparent srcImg pad = Ret canvas ->
  Point_In (Pt x y)
    (Rectangle_Add (Bounds srcImg) (Pt (Padding.left pad) (Padding.top pad))) = false ->
  RGBAAt canvas x y = Px 0 0 0 0.
Proof.
  intros Hc Hout.
  destruct (composite_spec _ _ _ _ Hc) as (_ & _ & _ & _ & _ & Hat).
  rewrite (Hat x y), Hout, andb_false_r.
  match goal with |- (if ?c then _ else _) = _ => destruct c end; reflexivity.
Qed.

(** C5.  From JPEG to PNG the configured background colour plays no
    part: two configurations with the same padding give the same result
    and the same world, whatever their colours.  A conversion that
    succeeds writes what the PNG encoder makes of the canvas composed
    over a transparent fill, and on that canvas every pixel outside the
    source rectangle, moved by the offset, is zero: alpha 0. *)
Theorem convertJPEGToPNG_ignores_bgColor
  (inputFile outputFile : string) (pad : Padding.t) (w : World) :
  (forall c1 c2 : Color,
      convertJPEGToPNG inputFile outputFile (Config_ c1 pad) w
      = convertJPEGToPNG inputFile outputFile (Config_ c2 pad) w)
  /\ (forall c1 c2 : Color,
      detectFormat inputFile = "jpeg" -> detectFormat outputFile = "png" ->
      convertImage inputFile outputFile (Config_ c1 pad) w
      = convertImage inputFile outputFile (Config_ c2 pad) w)
  /\ (forall c : Color,
      (convertJPEGToPNG inputFile outputFile (Config_ c pad) w).2 = Ret tt ->
      exists data srcImg canvas,
        files w !! inputFile = Some data /\ jpegDecode data = inr srcImg
        /\ composite Transparent srcImg pad = Ret canvas
        /\ files (convertJPEGToPNG inputFile outputFile (Config_ c pad) w).1
           = <[outputFile := (pngEncode canvas).1]> (files w)
        /\ forall x y,
             Point_In (Pt x y)
               (Rectangle_Add (Bounds srcImg) (Pt (Padding.left pad) (Padding.top pad)))
             = false ->
             RGBAAt canvas x y = Px 0 0 0 0 /\ pxA (RGBAAt canvas x y) = 0).
Proof.
  split; [|split].
  - intros c1 c2. now rewrite !convertJPEGToPNG_run.
  - intros c1 c2 Hi Ho.
    rewrite !(convertImage_jpeg_png _ _ _ Hi Ho). now rewrite !convertJPEGToPNG_run.
  - intros c. rewrite convertJPEGToPNG_run. cbn [padding].
    destruct (files w !! inputFile) as [data|] eqn:Hin; [|discriminate].
    destruct (jpegDecode data) as [e|srcImg] eqn:Hdec; [discriminate|].
    destruct (files w !! outputFile) as [outData|] eqn:Hout.
    + unfold bindM.
      rewrite (run_os_OpenFile_some outputFile (afterInput inputFile w) outData Hout).
      discriminate.
    + unfold bindM, liftM.
      rewrite (run_os_OpenFile_none outputFile (afterInput inputFile w) Hout).
      destruct (composite Transparent srcImg pad) as [canvas|e|msg] eqn:Hc;
        [|discriminate..].
      intros _. exists data, srcImg, canvas.
      split; [reflexivity|]. split; [exact Hdec|]. split; [exact Hc|]. split.
      * unfold png_Encode, writeOut. run_io.
        rewrite lookup_insert_eq. cbn [default from_option id app].
        now rewrite insert_insert_eq.
      * intros x y Hp. rewrite (composite_transparent_outside _ _ _ x y Hc Hp). now split.
Qed.

(** ** Allocation *)

Lemma NewRGBA_allocates (r : Rectangle) :
  0 <= mul3NonNeg 4 (Dx r) (Dy r) -> exists m, NewRGBA r = Ret m.
Proof.
  intros H. unfold NewRGBA. cbv zeta.
  destruct (Z.ltb_spec (mul3NonNeg 4 (Dx r) (Dy r)) 0); [lia|].
  eexists. reflexivity.
Qed.

Lemma composite_allocates (fill : Color) (srcImg : Image) (pad : Padding.t) :
  0 <= mul3NonNeg 4 (Dx (canvasRect (Bounds srcImg) pad)) (Dy (canvasRect (Bounds srcImg) pad)) ->
  exists canvas, composite fill srcImg pad = Ret canvas.
Proof.
  intros H. destruct (NewRGBA_allocates _ H) as [m Hm].
  unfold composite. rewrite Hm. eexists. reflexivity.
Qed.

(** * Further properties of the parsers *)

(** ** [strconv.Atoi] and the padding parser *)

Lemma atoiLoop_bound (s : string) :
  forall n0 n,
    0 <= n0 -> atoiLoop s n0 = Some n ->
    0 <= n /\ n + 1 <= (n0 + 1) * 10 ^ Z.of_nat (String.length s).
Proof.
  induction s as [|c rest IH]; intros n0 n Hn0; cbn [atoiLoop String.length].
  - intros [= <-]. change (10 ^ Z.of_nat 0) with 1. lia.
  - cbv zeta.
    pose proof (Z.mod_pos_bound (byteval c - 48) 256 eq_refl) as Hch.
    destruct (Z.ltb_spec 9 ((byteval c - 48) mod 256)) as [|Hle]; [discriminate|].
    intros Hloop. apply IH in Hloop; [|lia].
    rewrite Nat2Z.inj_succ, Z.pow_succ_r by lia.
    assert (0 < 10 ^ Z.of_nat (String.length rest)) by (apply Z.pow_pos_nonneg; lia).
    split; [lia|]. nia.
Qed.

Lemma digitOf_nonneg (c : ascii) (d : Z) : digitOf c = Some d -> 0 <= d.
Proof.
  unfold digitOf. cbv zeta.
  destruct (Z.leb_spec 48 (byteval c)); cbn [andb].
  - destruct (Z.leb_spec (byteval c) 57); [intros [= <-]; lia|].
    destruct (Z.leb_spec 97 (lowerBits (byteval c))); cbn [andb]; [|discriminate].
    destruct (lowerBits (byteval c) <=? 122); [intros [= <-]; lia|discriminate].
  - destruct (Z.leb_spec 97 (lowerBits (byteval c))); cbn [andb]; [|discriminate].
    destruct (lowerBits (byteval c) <=? 122); [intros [= <-]; lia|discriminate].
Qed.

Lemma parseUintLoop_nonneg (base : Z) (s : string) :
  0 <= base -> forall n0 n, 0 <= n0 -> parseUintLoop base s n0 = inl n -> 0 <= n.
Proof.
  intros Hbase. induction s as [|c rest IH]; intros n0 n Hn0; cbn [parseUintLoop].
  - intros [= <-]. exact Hn0.
  - destruct (digitOf c) as [d|] eqn:Hd; [|discriminate].
    apply digitOf_nonneg in Hd.
    destruct (base <=? d); [discriminate|].
    destruct (maxUint64 / base + 1 <=? n0); [discriminate|]. cbv zeta.
    destruct (maxUint64 <? n0 * base + d); [discriminate|].
    apply IH. nia.
Qed.

Lemma ParseInt_in_range (s : string) (base v : Z) :
  0 <= base -> ParseInt s base = Ret v -> GoInt.minInt <= v <= GoInt.maxInt.
Proof.
  intros Hbase. unfold ParseInt, ParseUint, GoInt.minInt, GoInt.maxInt.
  destruct s as [|c rest]; [discriminate|]. cbv zeta.
  set (digits := if Ascii.eqb c "+" || Ascii.eqb c "-" then rest else String c rest).
  assert (forall un, match digits with
                     | EmptyString => inr ErrSyntax
                     | String _ _ => parseUintLoop base digits 0
                     end = inl un -> 0 <= un) as Hun.
  { intros un. destruct digits as [|d ds]; [discriminate|].
    apply (parseUintLoop_nonneg base _ Hbase 0 un). lia. }
  destruct (match digits with
            | EmptyString => inr ErrSyntax
            | String _ _ => parseUintLoop base digits 0
            end) as [un|[]]; try discriminate.
  specialize (Hun un eq_refl).
  change (2 ^ 63) with 9223372036854775808.
  destruct (Ascii.eqb c "-"); cbn [negb andb].
  - destruct (Z.ltb_spec 9223372036854775808 un); [discriminate|]. intros [= <-]. lia.
  - destruct (Z.leb_spec 9223372036854775808 un); [discriminate|]. intros [= <-]. lia.
Qed.

(** What [Atoi] returns fits an [int]. *)
Lemma Atoi_in_range (s : string) (v : Z) :
  Atoi s = Ret v -> GoInt.minInt <= v <= GoInt.maxInt.
Proof.
  unfold Atoi. cbv zeta.
  destruct (Z.ltb_spec 0 (Z.of_nat (String.length s))) as [Hpos|]; cbn [andb].
  - destruct (Z.ltb_spec (Z.of_nat (String.length s)) 19) as [Hlen|].
    + destruct s as [|c rest]; [discriminate|]. cbn [String.length] in Hlen.
      set (digits := if Ascii.eqb c "-" || Ascii.eqb c "+" then rest else String c rest).
      assert (Z.of_nat (String.length digits) <= 18) as Hd.
      { subst digits. destruct (Ascii.eqb c "-" || Ascii.eqb c "+"); cbn [String.length]; lia. }
      destruct ((Ascii.eqb c "-" || Ascii.eqb c "+") && (Z.of_nat (String.length digits) <? 1));
        [discriminate|].
      destruct (atoiLoop digits 0) as [n|] eqn:Hloop; [|discriminate].
      apply atoiLoop_bound in Hloop as [Hn0 Hn]; [|lia].
      assert (10 ^ Z.of_nat (String.length digits) <= 10 ^ 18)
        by (apply Z.pow_le_mono_r; lia).
      change (10 ^ 18) with 1000000000000000000 in *.
      unfold GoInt.minInt, GoInt.maxInt. change (2 ^ 63) with 9223372036854775808.
      destruct (Ascii.eqb c "-"); intros [= <-]; lia.
    + destruct (ParseInt s 10) as [v'|[]|msg] eqn:Hp; try discriminate.
      intros [= <-]. apply (ParseInt_in_range s 10 v'); [lia|exact Hp].
  - destruct (ParseInt s 10) as [v'|[]|msg] eqn:Hp; try discriminate.
    intros [= <-]. apply (ParseInt_in_range s 10 v'); [lia|exact Hp].
Qed.

Lemma Atoi_no_panic (s : string) (msg : string) : Atoi s <> Panic msg.
Proof.
  unfold Atoi. cbv zeta.
  destruct ((0 <? Z.of_nat (String.length s)) && (Z.of_nat (String.length s) <? 19)).
  - destruct s as [|c rest]; [discriminate|].
    destruct (_ && _); [discriminate|].
    destruct (atoiLoop _ 0); discriminate.
  - destruct (ParseInt s 10) as [v|[]|m] eqn:Hp; try discriminate.
    exfalso. exact (ParseInt_no_panic _ _ _ Hp).
Qed.

(** One token parsed under a message: an edge value that fits an [int],
    or the error of [Atoi] under the message; never a panic. *)
Lemma edge_cases (msg t : string) :
  (exists v, wrapErr msg (Atoi t) = Ret v /\ Atoi t = Ret v
             /\ GoInt.minInt <= v <= GoInt.maxInt)
  \/ (exists e, wrapErr msg (Atoi t) = Fail (ErrorfW msg e) /\ Atoi t = Fail e).
Proof.
  destruct (Atoi t) as [v|e|m] eqn:Ht.
  - left. exists v. split; [reflexivity|]. split; [reflexivity|]. now apply (Atoi_in_range t).
  - right. exists e. now split.
  - exfalso. exact (Atoi_no_panic _ _ Ht).
Qed.

(** X1.  The padding parser never panics, and every edge of a padding it
    returns is a value of [int]. *)
Theorem parsePadding_never_panics (paddingStr : string) :
  (forall msg, parsePadding paddingStr <> Panic msg)
  /\ (forall p, parsePadding paddingStr = Ret p -> paddingInRange p).
Proof.
  assert (GoInt.minInt <= 0 <= GoInt.maxInt) as H0 by (split; discriminate).
  destruct (String.eqb_spec paddingStr "") as [->|Hne].
  - split; [discriminate|]. intros p [= <-]. repeat split; apply H0.
  - rewrite (parsePadding_count paddingStr Hne).
    destruct (Split paddingStr ",") as [|t1 [|t2 [|t3 [|t4 [|t5 more]]]]];
      cbn [length]; unfold index; cbn [lookup list_lookup bindR];
      try (split; [discriminate|intros p; discriminate]).
    + destruct (edge_cases "parse padding" t1) as [(v1 & -> & _ & R1)|(e & -> & _)];
        cbn [bindR]; (split; [discriminate|]); intros p [= <-]; repeat split; apply R1.
    + destruct (edge_cases "parse vertical padding" t1) as [(v1 & -> & _ & R1)|(e & -> & _)];
        cbn [bindR]; [|split; [discriminate|intros p; discriminate]].
      destruct (edge_cases "parse horizontal padding" t2) as [(v2 & -> & _ & R2)|(e & -> & _)];
        cbn [bindR]; (split; [discriminate|]); intros p [= <-];
        repeat split; apply R1 || apply R2.
    + destruct (edge_cases "parse top padding" t1) as [(v1 & -> & _ & R1)|(e & -> & _)];
        cbn [bindR]; [|split; [discriminate|intros p; discriminate]].
      destruct (edge_cases "parse right padding" t2) as [(v2 & -> & _ & R2)|(e & -> & _)];
        cbn [bindR]; [|split; [discriminate|intros p; discriminate]].
      destruct (edge_cases "parse bottom padding" t3) as [(v3 & -> & _ & R3)|(e & -> & _)];
        cbn [bindR]; [|split; [discriminate|intros p; discriminate]].
      destruct (edge_cases "parse left padding" t4) as [(v4 & -> & _ & R4)|(e & -> & _)];
        cbn [bindR]; (split; [discriminate|]); intros p [= <-];
        repeat split; apply R1 || apply R2 || apply R3 || apply R4.
Qed.

(** X2.  The tokens of a padding are read from left to right, and the
    first one that [Atoi] rejects decides the error: it is the error of
    [Atoi] under a message that names the edge (the whole padding for one
    token; vertical, horizontal for two; top, right, bottom, left for
    four). *)
Theorem parsePadding_error_names_edge (s : string) :
  (forall t e, Split s "," = [t] -> s <> "" -> Atoi t = Fail e ->
     parsePadding s = Fail (ErrorfW "parse padding" e))
  /\ (forall t1 t2 e, Split s "," = [t1; t2] -> Atoi t1 = Fail e ->
     parsePadding s = Fail (ErrorfW "parse vertical padding" e))
  /\ (forall t1 t2 v1 e, Split s "," = [t1; t2] -> Atoi t1 = Ret v1 -> Atoi t2 = Fail e ->
     parsePadding s = Fail (ErrorfW "parse horizontal padding" e))
  /\ (forall t1 t2 t3 t4 e, Split s "," = [t1; t2; t3; t4] -> Atoi t1 = Fail e ->
     parsePadding s = Fail (ErrorfW "parse top padding" e))
  /\ (forall t1 t2 t3 t4 v1 e, Split s "," = [t1; t2; t3; t4] ->
     Atoi t1 = Ret v1 -> Atoi t2 = Fail e ->
     parsePadding s = Fail (ErrorfW "parse right padding" e))
  /\ (forall t1 t2 t3 t4 v1 v2 e, Split s "," = [t1; t2; t3; t4] ->
     Atoi t1 = Ret v1 -> Atoi t2 = Ret v2 -> Atoi t3 = Fail e ->
     parsePadding s = Fail (ErrorfW "parse bottom padding" e))
  /\ (forall t1 t2 t3 t4 v1 v2 v3 e, Split s "," = [t1; t2; t3; t4] ->
     Atoi t1 = Ret v1 -> Atoi t2 = Ret v2 -> Atoi t3 = Ret v3 -> Atoi t4 = Fail e ->
     parsePadding s = Fail (ErrorfW "parse left padding" e)).
Proof.
  assert (forall ts, Split s "," = ts -> (2 <= length ts)%nat -> s <> "") as Hne.
  { intros ts Hs Hlen ->. cbn in Hs. subst ts. cbn in Hlen. lia. }
  repeat match goal with |- _ /\ _ => split end; intros;
    match goal with
    | Hs : Split s "," = _ |- _ =>
        first [ rewrite (parsePadding_count s ltac:(assumption))
              | rewrite (parsePadding_count s (Hne _ Hs ltac:(cbn; lia))) ];
        rewrite Hs; cbn [length]; unfold index; cbn [lookup list_lookup bindR]
    end;
    repeat match goal with
      | H : Atoi ?t = _ |- context [Atoi ?t] => rewrite H; cbn [wrapErr bindR]
      end; reflexivity.
Qed.

(** ** The colour parser *)

Lemma FindAllString_pair (a b : ascii) (rest : string) (n : nat) :
  FindAllString (String a (String b rest)) (S n)
  = if isWordByte a && isWordByte b
    then String a (String b EmptyString) :: FindAllString rest n
    else FindAllString (String b rest) (S n).
Proof. reflexivity. Qed.

Lemma FindAllString_zero (s : string) : FindAllString s 0 = [].
Proof. destruct s; reflexivity. Qed.

Lemma FindAllString_single (a : ascii) (n : nat) :
  FindAllString (String a EmptyString) n = [].
Proof. destruct n; reflexivity. Qed.

(** The scan steps over a byte that is no word byte. *)
Lemma FindAllString_skip (a : ascii) (t : string) (n : nat) :
  isWordByte a = false -> FindAllString (String a t) n = FindAllString t n.
Proof.
  intros Ha. destruct n as [|n]; [now rewrite !FindAllString_zero|].
  destruct t as [|b rest]; [reflexivity|].
  rewrite FindAllString_pair, Ha. reflexivity.
Qed.

Lemma TrimPrefix_hash (s : string) : TrimPrefix (String "#" s) "#" = s.
Proof. destruct s; reflexivity. Qed.

(** X3.  A leading '#' never changes what [parseHexColor] returns: the
    one that [TrimPrefix] strips is optional, and further ones are no
    word bytes, which the scan steps over. *)
Theorem parseHexColor_leading_hash (hexStr : string) :
  parseHexColor (String "#" hexStr) = parseHexColor hexStr.
Proof.
  unfold parseHexColor. rewrite TrimPrefix_hash.
  destruct hexStr as [|c rest]; [reflexivity|].
  unfold TrimPrefix. cbn [HasPrefix String.length dropBytes].
  destruct (Ascii.eqb_spec "#" c) as [<-|Hc]; cbn [andb].
  - destruct rest; cbn [HasPrefix dropBytes];
      now rewrite (FindAllString_skip "#" _ 3 eq_refl).
  - reflexivity.
Qed.

(** X4.  Every token of the scan is two word bytes, and there are at most
    [n] of them. *)
Theorem FindAllString_tokens (s : string) (n : nat) :
  (length (FindAllString s n) <= n)%nat
  /\ Forall (fun t => exists a b, t = String a (String b EmptyString)
                                  /\ isWordByte a = true /\ isWordByte b = true)
            (FindAllString s n).
Proof.
  split; [apply FindAllString_length|].
  remember (String.length s) as k eqn:Hk.
  assert (String.length s <= k)%nat as Hle by lia. clear Hk.
  revert s n Hle. induction k as [|k IH]; intros s n Hle.
  - destruct s; [|cbn in Hle; lia]. destruct n; constructor.
  - destruct s as [|a s']; [destruct n; constructor|].
    destruct n as [|n]; [rewrite FindAllString_zero; constructor|].
    destruct s' as [|b rest]; [constructor|].
    rewrite FindAllString_pair. cbn [String.length] in Hle.
    destruct (isWordByte a) eqn:Ha; cbn [andb]; [|apply IH; cbn [String.length]; lia].
    destruct (isWordByte b) eqn:Hb; [|apply IH; cbn [String.length]; lia].
    constructor; [exists a, b; now split|apply IH; lia].
Qed.

(** A hexadecimal digit is a word byte and no sign. *)
Lemma hex_digit_facts (c : ascii) (d : Z) :
  digitOf c = Some d -> d < 16 ->
  0 <= d /\ isWordByte c = true /\ Ascii.eqb c "+" = false /\ Ascii.eqb c "-" = false.
Proof.
  intros Hd Hlt. split; [exact (digitOf_nonneg c d Hd)|]. revert Hd Hlt.
  destruct c as [[] [] [] [] [] [] [] []]; intros Hd Hlt; vm_compute in Hd;
    try discriminate Hd; injection Hd as <-;
    try (exfalso; vm_compute in Hlt; discriminate Hlt); repeat split.
Qed.

Lemma ParseInt_two_hex (a b : ascii) (da db : Z) :
  digitOf a = Some da -> da < 16 -> digitOf b = Some db -> db < 16 ->
  ParseInt (String a (String b EmptyString)) 16 = Ret (da * 16 + db).
Proof.
  intros Ha Hla Hb Hlb.
  destruct (hex_digit_facts a da Ha Hla) as (Ha0 & _ & Hplus & Hminus).
  destruct (hex_digit_facts b db Hb Hlb) as (Hb0 & _ & _ & _).
  unfold ParseInt. rewrite Hplus, Hminus. cbn [orb negb andb].
  unfold ParseUint. cbn [parseUintLoop]. rewrite Ha, Hb. cbv zeta.
  replace (maxUint64 / 16 + 1) with 1152921504606846976 by reflexivity.
  unfold maxUint64. change (2 ^ 64 - 1) with 18446744073709551615.
  change (2 ^ 63) with 9223372036854775808.
  destruct (Z.leb_spec 16 da); [lia|].
  destruct (Z.leb_spec 1152921504606846976 0); [lia|].
  destruct (Z.ltb_spec 18446744073709551615 (0 * 16 + da)); [lia|].
  destruct (Z.leb_spec 16 db); [lia|].
  destruct (Z.leb_spec 1152921504606846976 (0 * 16 + da)); [lia|].
  destruct (Z.ltb_spec 18446744073709551615 ((0 * 16 + da) * 16 + db)); [lia|].
  destruct (Z.leb_spec 9223372036854775808 ((0 * 16 + da) * 16 + db)); [lia|].
  reflexivity.
Qed.

(** X5.  Six hexadecimal digits, with or without the leading '#', parse
    to the colour with R, G and B the values of the three pairs of
    digits, whatever the case of the letters; the field A stays 0. *)
Theorem parseHexColor_RRGGBB (r1 r2 g1 g2 b1 b2 : ascii) (vr1 vr2 vg1 vg2 vb1 vb2 : Z) :
  digitOf r1 = Some vr1 -> vr1 < 16 -> digitOf r2 = Some vr2 -> vr2 < 16 ->
  digitOf g1 = Some vg1 -> vg1 < 16 -> digitOf g2 = Some vg2 -> vg2 < 16 ->
  digitOf b1 = Some vb1 -> vb1 < 16 -> digitOf b2 = Some vb2 -> vb2 < 16 ->
  let digits :=
    String r1 (String r2 (String g1 (String g2 (String b1 (String b2 EmptyString))))) in
  let colour := RGBA (vr1 * 16 + vr2) (vg1 * 16 + vg2) (vb1 * 16 + vb2) 0 in
  parseHexColor digits = Ret colour /\ parseHexColor (String "#" digits) = Ret colour.
Proof.
  intros Hr1 Lr1 Hr2 Lr2 Hg1 Lg1 Hg2 Lg2 Hb1 Lb1 Hb2 Lb2. cbv zeta.
  destruct (hex_digit_facts r1 vr1 Hr1 Lr1) as (P1 & W1 & _).
  destruct (hex_digit_facts r2 vr2 Hr2 Lr2) as (P2 & W2 & _).
  destruct (hex_digit_facts g1 vg1 Hg1 Lg1) as (P3 & W3 & _).
  destruct (hex_digit_facts g2 vg2 Hg2 Lg2) as (P4 & W4 & _).
  destruct (hex_digit_facts b1 vb1 Hb1 Lb1) as (P5 & W5 & _).
  destruct (hex_digit_facts b2 vb2 Hb2 Lb2) as (P6 & W6 & _).
  set (digits :=
         String r1 (String r2 (String g1 (String g2 (String b1 (String b2 EmptyString)))))).
  assert (forall s, TrimPrefix s "#" = digits ->
                    parseHexColor s
                    = Ret (RGBA (vr1 * 16 + vr2) (vg1 * 16 + vg2) (vb1 * 16 + vb2) 0))
    as Hcore.
  { intros s Hs. unfold parseHexColor. rewrite Hs. subst digits.
    rewrite !FindAllString_pair, W1, W2, W3, W4, W5, W6. cbn [andb].
    unfold index. cbn [lookup list_lookup bindR].
    rewrite (ParseInt_two_hex r1 r2 vr1 vr2 Hr1 Lr1 Hr2 Lr2). cbn [bindR].
    rewrite (ParseInt_two_hex g1 g2 vg1 vg2 Hg1 Lg1 Hg2 Lg2). cbn [bindR].
    rewrite (ParseInt_two_hex b1 b2 vb1 vb2 Hb1 Lb1 Hb2 Lb2). cbn [bindR].
    unfold uint8. rewrite !Z.mod_small by lia. reflexivity. }
  split; apply Hcore; [|apply TrimPrefix_hash].
  subst digits. unfold TrimPrefix. cbn [HasPrefix].
  destruct (Ascii.eqb_spec "#" r1) as [<-|]; [discriminate W1|reflexivity].
Qed.

(** * Further properties of the format detector and of the files *)

(** ** [filepath.Ext] and [detectFormat] *)

Lemma list_ascii_of_string_app (s t : string) :
  list_ascii_of_string (s ++ t) = (list_ascii_of_string s ++ list_ascii_of_string t)%list.
Proof.
  induction s as [|c s IH]; [reflexivity|].
  change (String c s ++ t) with (String c (s ++ t)).
  cbn [list_ascii_of_string app]. now rewrite IH.
Qed.

Lemma string_of_list_ascii_snoc (l : list ascii) (c : ascii) (acc : string) :
  string_of_list_ascii (l ++ [c])%list ++ acc = string_of_list_ascii l ++ String c acc.
Proof.
  induction l as [|d l IH]; [reflexivity|].
  cbn [app string_of_list_ascii].
  change (String d (string_of_list_ascii (l ++ [c])%list) ++ acc)
    with (String d (string_of_list_ascii (l ++ [c])%list ++ acc)).
  rewrite IH. reflexivity.
Qed.

Lemma scanExt_suffix (r more : list ascii) :
  forall acc, plainBytes r = true ->
    scanExt (r ++ "."%char :: more) acc
    = String "." (string_of_list_ascii (rev r) ++ acc).
Proof.
  induction r as [|c r IH]; intros acc Hr; cbn [app rev scanExt].
  - reflexivity.
  - cbn [plainBytes forallb] in Hr.
    apply andb_true_iff in Hr as [Hc Hr]. apply andb_true_iff in Hc as [Hslash Hdot].
    apply negb_true_iff in Hslash, Hdot. rewrite Hslash, Hdot.
    rewrite (IH _ Hr). now rewrite string_of_list_ascii_snoc.
Qed.

Lemma scanExt_plain (r : list ascii) :
  forall acc, forallb (fun c => negb (Ascii.eqb c ".")) r = true -> scanExt r acc = EmptyString.
Proof.
  induction r as [|c r IH]; intros acc Hr; cbn [scanExt]; [reflexivity|].
  cbn [forallb] in Hr. apply andb_true_iff in Hr as [Hdot Hr].
  apply negb_true_iff in Hdot. rewrite Hdot.
  destruct (Ascii.eqb c "/"); [reflexivity|]. now apply IH.
Qed.

Lemma hasByte_forallb (c : ascii) (s : string) :
  hasByte c s = false ->
  forallb (fun d => negb (Ascii.eqb d c)) (list_ascii_of_string s) = true.
Proof.
  induction s as [|d s IH]; cbn; [reflexivity|].
  intros H. apply orb_false_iff in H as [Hd Hs]. now rewrite Hd, (IH Hs).
Qed.

Lemma forallb_rev {A : Type} (f : A -> bool) (l : list A) :
  forallb f (rev l) = forallb f l.
Proof.
  induction l as [|a l IH]; cbn; [reflexivity|].
  rewrite forallb_app, IH. cbn. rewrite andb_true_r. apply andb_comm.
Qed.

(** The extension of a path that ends in a dot and a plain suffix is the
    dot and the suffix. *)
Lemma Ext_suffix (base e : string) :
  hasByte "." e = false -> hasByte "/" e = false ->
  Ext (base ++ String "." e) = String "." e.
Proof.
  intros Hdot Hslash. unfold Ext.
  rewrite list_ascii_of_string_app. cbn [list_ascii_of_string].
  rewrite rev_app_distr. cbn [rev]. rewrite <- app_assoc. cbn [app].
  rewrite scanExt_suffix.
  - rewrite rev_involutive, string_of_list_ascii_of_string.
    clear. f_equal. induction e as [|c e IH]; [reflexivity|].
    change (String c e ++ "") with (String c (e ++ "")). now rewrite IH.
  - unfold plainBytes. rewrite forallb_rev.
    apply hasByte_forallb in Hdot, Hslash.
    revert Hdot Hslash. generalize (list_ascii_of_string e).
    induction l as [|c l IH]; cbn; [reflexivity|].
    intros H1 H2. apply andb_true_iff in H1 as [-> H1], H2 as [-> H2].
    cbn. now apply IH.
Qed.

Lemma Ext_no_dot (path : string) : hasByte "." path = false -> Ext path = EmptyString.
Proof.
  intros H. unfold Ext. apply scanExt_plain.
  rewrite forallb_rev. now apply hasByte_forallb.
Qed.

(** X6.  The format of a path is decided by its extension alone, up to
    the case of ASCII letters: whatever comes before the last dot, a
    suffix that folds to "png" gives png, one that folds to "jpg" or
    "jpeg" gives jpeg, and any other ASCII suffix gives unknown; a path
    with no dot at all is unknown. *)
Theorem detectFormat_extension (base e : string) :
  (hasByte "." e = false -> hasByte "/" e = false ->
   (lowerASCII e = "png" -> detectFormat (base ++ String "." e) = "png")
   /\ (lowerASCII e = "jpg" \/ lowerASCII e = "jpeg" ->
       detectFormat (base ++ String "." e) = "jpeg")
   /\ (isASCII e = true -> lowerASCII e <> "png" -> lowerASCII e <> "jpg" ->
       lowerASCII e <> "jpeg" -> detectFormat (base ++ String "." e) = "unknown"))
  /\ (hasByte "." base = false -> detectFormat base = "unknown").
Proof.
  split.
  - intros Hdot Hslash. unfold detectFormat. rewrite (Ext_suffix base e Hdot Hslash).
    assert (forall t, lowerASCII e = t -> isASCII t = true ->
                      ToLower (String "." e) = String "." t) as Hfold.
    { intros t Ht Hascii. apply ToLower_fold; cbn; [now rewrite Ht|exact Hascii]. }
    split; [|split].
    + intros He. now rewrite (Hfold _ He eq_refl).
    + intros [He|He]; now rewrite (Hfold _ He eq_refl).
    + intros Hascii Npng Njpg Njpeg.
      rewrite (Hfold _ eq_refl); [|now rewrite lowerASCII_isASCII].
      destruct (String.eqb_spec (String "." (lowerASCII e)) ".png") as [H|_];
        [injection H as H; contradiction|].
      destruct (String.eqb_spec (String "." (lowerASCII e)) ".jpeg") as [H|_];
        [injection H as H; contradiction|].
      destruct (String.eqb_spec (String "." (lowerASCII e)) ".jpg") as [H|_];
        [injection H as H; contradiction|]. reflexivity.
  - intros Hdot. unfold detectFormat. now rewrite (Ext_no_dot base Hdot).
Qed.

(** ** The files of a conversion *)

Lemma convertPNGToJPEG_frame
  (inputFile outputFile : string) (config : Config) (w : World) (path : string) :
  path <> outputFile ->
  files (convertPNGToJPEG inputFile outputFile config w).1 !! path = files w !! path.
Proof.
  intros Hne. rewrite convertPNGToJPEG_run.
  destruct (files w !! inputFile) as [data|]; [|reflexivity].
  destruct (pngDecode data) as [e|srcImg]; [reflexivity|].
  destruct (composite _ srcImg _) as [canvas|e|msg]; [|reflexivity..].
  unfold bindM.
  destruct (files (afterInput inputFile w) !! outputFile) as [old|] eqn:Hout.
  - now rewrite (run_os_OpenFile_some _ _ _ Hout).
  - rewrite (run_os_OpenFile_none _ _ Hout). unfold jpeg_Encode.
    destruct ((65536 <=? Dx (RGBARect canvas)) || (65536 <=? Dy (RGBARect canvas))).
    + unfold liftM. run_io. now apply lookup_insert_ne.
    + unfold writeOut. run_io. rewrite !lookup_insert_ne by congruence. reflexivity.
Qed.

Lemma convertJPEGToPNG_frame
  (inputFile outputFile : string) (config : Config) (w : World) (path : string) :
  path <> outputFile ->
  files (convertJPEGToPNG inputFile outputFile config w).1 !! path = files w !! path.
Proof.
  intros Hne. rewrite convertJPEGToPNG_run.
  destruct (files w !! inputFile) as [data|]; [|reflexivity].
  destruct (jpegDecode data) as [e|srcImg]; [reflexivity|].
  unfold bindM.
  destruct (files (afterInput inputFile w) !! outputFile) as [old|] eqn:Hout.
  - now rewrite (run_os_OpenFile_some _ _ _ Hout).
  - rewrite (run_os_OpenFile_none _ _ Hout). unfold liftM.
    destruct (composite _ srcImg _) as [canvas|e|msg];
      [|run_io; now apply lookup_insert_ne..].
    unfold png_Encode, writeOut. run_io. rewrite !lookup_insert_ne by congruence. reflexivity.
Qed.

(** X7.  A conversion, however it ends, changes no file but the one at
    the output path; and it never changes the input file, since the two
    paths of a supported pair have different formats. *)
Theorem convertImage_touches_only_output
  (inputFile outputFile : string) (config : Config) (w : World) :
  (forall path, path <> outputFile ->
     files (convertImage inputFile outputFile config w).1 !! path = files w !! path)
  /\ files (convertImage inputFile outputFile config w).1 !! inputFile
     = files w !! inputFile.
Proof.
  assert (forall path, path <> outputFile ->
            files (convertImage inputFile outputFile config w).1 !! path = files w !! path)
    as Hframe.
  { intros path Hne. unfold convertImage.
    destruct (String.eqb _ "png" && String.eqb _ "jpeg");
      [now apply convertPNGToJPEG_frame|].
    destruct (String.eqb _ "jpeg" && String.eqb _ "png");
      [now apply convertJPEGToPNG_frame|reflexivity]. }
  split; [exact Hframe|].
  destruct (String.eqb_spec inputFile outputFile) as [<-|Hne]; [|now apply Hframe].
  unfold convertImage.
  destruct (String.eqb_spec (detectFormat inputFile) "png") as [Hpng|_];
    destruct (String.eqb_spec (detectFormat inputFile) "jpeg") as [Hjpeg|_];
    try reflexivity.
  rewrite Hpng in Hjpeg. discriminate.
Qed.

(** X8.  When the input file does not exist, a conversion of a supported
    pair fails with the error of opening the input ("no such file"); the
    attempt to open it is its only system call, no file is created, the
    output included, and no handle is left open. *)
Theorem convertImage_missing_input
  (inputFile outputFile : string) (config : Config) (w : World) :
  files w !! inputFile = None ->
  (detectFormat inputFile = "png" /\ detectFormat outputFile = "jpeg")
  \/ (detectFormat inputFile = "jpeg" /\ detectFormat outputFile = "png") ->
  (convertImage inputFile outputFile config w).2 = Fail (PathError "open" inputFile ENOENT)
  /\ files (convertImage inputFile outputFile config w).1 = files w
  /\ opened (convertImage inputFile outputFile config w).1 = opened w
  /\ log (convertImage inputFile outputFile config w).1 = (log w ++ [SysOpen inputFile])%list.
Proof.
  intros Hin [[Hi Ho]|[Hi Ho]].
  - rewrite (convertImage_png_jpeg _ _ _ Hi Ho), convertPNGToJPEG_run, Hin.
    repeat split.
  - rewrite (convertImage_jpeg_png _ _ _ Hi Ho), convertJPEGToPNG_run, Hin.
    repeat split.
Qed.

Lemma composite_panics (fill : Color) (srcImg : Image) (pad : Padding.t) :
  mul3NonNeg 4 (Dx (canvasRect (Bounds srcImg) pad)) (Dy (canvasRect (Bounds srcImg) pad)) < 0 ->
  composite fill srcImg pad
  = Panic "image: NewRGBA Rectangle has huge or negative dimensions".
Proof.
  intros H. unfold composite, NewRGBA. cbv zeta.
  destruct (Z.ltb_spec
              (mul3NonNeg 4 (Dx (canvasRect (Bounds srcImg) pad))
                 (Dy (canvasRect (Bounds srcImg) pad))) 0); [reflexivity|lia].
Qed.

(** X9.  When the canvas is too large to allocate, [image.NewRGBA]
    panics in both conversions, but not at the same point: from PNG to
    JPEG the output file is not yet created and the files are as they
    were, while from JPEG to PNG the output file was created before, and
    stays behind empty. *)
Theorem canvas_panic_and_output_file
  (inputFile outputFile : string) (config : Config) (w : World)
  (data : list byte) (srcImg : Image) :
  files w !! inputFile = Some data -> files w !! outputFile = None ->
  mul3NonNeg 4 (Dx (canvasRect (Bounds srcImg) (padding config)))
               (Dy (canvasRect (Bounds srcImg) (padding config))) < 0 ->
  (pngDecode data = inr srcImg ->
   (convertPNGToJPEG inputFile outputFile config w).2
   = Panic "image: NewRGBA Rectangle has huge or negative dimensions"
   /\ files (convertPNGToJPEG inputFile outputFile config w).1 = files w)
  /\ (jpegDecode data = inr srcImg ->
      (convertJPEGToPNG inputFile outputFile config w).2
      = Panic "image: NewRGBA Rectangle has huge or negative dimensions"
      /\ files (convertJPEGToPNG inputFile outputFile config w).1
         = <[outputFile := []]> (files w)).
Proof.
  intros Hin Hout Hhuge. split; intros Hdec.
  - rewrite convertPNGToJPEG_run, Hin, Hdec, (composite_panics _ _ _ Hhuge). now split.
  - rewrite convertJPEGToPNG_run, Hin, Hdec. unfold bindM.
    rewrite (run_os_OpenFile_none outputFile (afterInput inputFile w) Hout).
    unfold liftM. rewrite (composite_panics _ _ _ Hhuge). now split.
Qed.

(** X10.  From JPEG to PNG, with the input decoded, the canvas allocated
    and no file at the output path: the output file holds what the PNG
    encoder wrote, and the conversion ends as the encoder did; when the
    encoder fails, what it had written stays in the file. *)
Theorem convertJPEGToPNG_writes
  (inputFile outputFile : string) (config : Config) (w : World)
  (data : list byte) (srcImg : Image) (canvas : RGBAImage) :
  files w !! inputFile = Some data -> jpegDecode data = inr srcImg ->
  files w !! outputFile = None ->
  composite Transparent srcImg (padding config) = Ret canvas ->
  files (convertJPEGToPNG inputFile outputFile config w).1
  = <[outputFile := (pngEncode canvas).1]> (files w)
  /\ (convertJPEGToPNG inputFile outputFile config w).2
     = match (pngEncode canvas).2 with Some e => Fail e | None => Ret tt end.
Proof.
  intros Hin Hdec Hout Hc.
  rewrite convertJPEGToPNG_run, Hin, Hdec. unfold bindM.
  rewrite (run_os_OpenFile_none outputFile (afterInput inputFile w) Hout).
  unfold liftM. rewrite Hc. unfold png_Encode, writeOut. run_io.
  rewrite lookup_insert_eq. cbn [default from_option id app].
  now rewrite insert_insert_eq.
Qed.

(** * Further properties of the canvas and of the program *)

(** ** Blending *)

Lemma overChannel_opaque (d s : Z) : overChannel d s 65535 = srcChannel s.
Proof.
  unfold overChannel, srcChannel. cbv zeta.
  replace (uint32 ((m16 - uint32 (65535 * m16) / m16) * 257)) with 0 by reflexivity.
  now rewrite Z.mul_0_r, Z.add_0_l.
Qed.

(** An opaque colour drawn "over" a pixel replaces it. *)
Lemma blend_Over_opaque (d : pixel) (c : Color) :
  alpha16 c = 65535 -> blend Over d c = fillPixel c.
Proof.
  unfold alpha16, fillPixel, blend.
  destruct (Color_RGBA c) as [[[sr sg] sb] sa]. cbn [snd]. intros ->.
  now rewrite !overChannel_opaque.
Qed.

(** Any colour drawn "over" the zero pixel is stored as it is. *)
Lemma blend_Over_zero (c : Color) : blend Over (Px 0 0 0 0) c = fillPixel c.
Proof.
  unfold fillPixel, blend. destruct (Color_RGBA c) as [[[sr sg] sb] sa]. reflexivity.
Qed.

(** X11.  Where the source pixel is opaque, the canvas holds that pixel
    and nothing of the background, whatever the fill colour and whether
    the fill reached the point or not. *)
Theorem opaque_source_replaces_fill
  (fill : Color) (srcImg : Image) (pad : Padding.t) (canvas : RGBAImage) (x y : Z) :
  composite fill srcImg pad = Ret canvas ->
  Point_In (Pt x y) (RGBARect canvas) = true ->
  Point_In (Pt x y)
    (Rectangle_Add (Bounds srcImg) (Pt (Padding.left pad) (Padding.top pad))) = true ->
  alpha16 (At srcImg (GoInt.sub x (Padding.left pad)) (GoInt.sub y (Padding.top pad))) = 65535 ->
  RGBAAt canvas x y
  = fillPixel (At srcImg (GoInt.sub x (Padding.left pad)) (GoInt.sub y (Padding.top pad))).
Proof.
  intros Hc Hin Hmoved Hopaque.
  destruct (composite_spec fill srcImg pad canvas Hc) as (_ & _ & Hr & _ & _ & Hat).
  rewrite Hr in Hin. rewrite (Hat x y), Hin, Hmoved. cbn [andb].
  now apply blend_Over_opaque.
Qed.

(** X12.  The canvas of the JPEG to PNG conversion is the source on a
    zero background: inside the source rectangle, moved by the offset,
    each pixel is the source pixel as [Src] would store it, and every
    other pixel is zero.  This holds for every size of canvas. *)
Theorem transparent_canvas_is_source
  (srcImg : Image) (pad : Padding.t) (canvas : RGBAImage) (x y : Z) :
  composite Transparent srcImg pad = Ret canvas ->
  RGBAAt canvas x y
  = if Point_In (Pt x y) (RGBARect canvas)
       && Point_In (Pt x y)
            (Rectangle_Add (Bounds srcImg) (Pt (Padding.left pad) (Padding.top pad)))
    then fillPixel (At srcImg (GoInt.sub x (Padding.left pad))
                      (GoInt.sub y (Padding.top pad)))
    else Px 0 0 0 0.
Proof.
  intros Hc.
  destruct (composite_spec Transparent srcImg pad canvas Hc) as (_ & _ & Hr & _ & _ & Hat).
  rewrite Hr, (Hat x y).
  change (fillPixel Transparent) with (Px 0 0 0 0).
  assert (forall b : bool, (if b then Px 0 0 0 0 else Px 0 0 0 0) = Px 0 0 0 0) as Hb
    by (intros []; reflexivity).
  rewrite Hb. now rewrite blend_Over_zero.
Qed.

(** ** [main] *)

Lemma convertImage_success
  (inputFile outputFile : string) (config : Config) (w : World) :
  (convertImage inputFile outputFile config w).2 = Ret tt ->
  ((detectFormat inputFile = "png" /\ detectFormat outputFile = "jpeg")
   \/ (detectFormat inputFile = "jpeg" /\ detectFormat outputFile = "png"))
  /\ files w !! outputFile = None
  /\ is_Some (files w !! inputFile).
Proof.
  unfold convertImage.
  destruct (String.eqb_spec (detectFormat inputFile) "png") as [Hi|_];
    destruct (String.eqb_spec (detectFormat outputFile) "jpeg") as [Ho|_]; cbn [andb].
  1: { intros Hok. split; [left; now split|].
       rewrite convertPNGToJPEG_run in Hok. split.
       - destruct (files w !! outputFile) as [old|] eqn:Hout; [|reflexivity].
         destruct (convertPNGToJPEG_output_exists inputFile outputFile config w old Hout)
           as [_ Hfail].
         rewrite convertPNGToJPEG_run in Hfail. contradiction.
       - destruct (files w !! inputFile) as [data|]; [eauto|discriminate]. }
  all: destruct (String.eqb_spec (detectFormat inputFile) "jpeg") as [Hi'|_];
    destruct (String.eqb_spec (detectFormat outputFile) "png") as [Ho'|_]; cbn [andb];
    try discriminate.
  all: intros Hok; (split; [right; now split|]);
    rewrite convertJPEGToPNG_run in Hok; split;
    [ destruct (files w !! outputFile) as [old|] eqn:Hout; [|reflexivity];
      destruct (convertJPEGToPNG_output_exists inputFile outputFile config w old Hout)
        as [_ Hfail];
      rewrite convertJPEGToPNG_run in Hfail; contradiction
    | destruct (files w !! inputFile) as [data|]; [eauto|discriminate] ].
Qed.

(** X13.  The program ends successfully only when there are exactly two
    arguments, the colour and the padding parse, the formats are a
    supported pair, the input file exists and the output file did not;
    it then has printed its two lines.  And when the arguments are not
    two, or the colour or the padding does not parse, the program fails
    with the world as it was: no file is opened. *)
Theorem main_outcomes
  (bgFlag paddingFlag : option string) (args : list string) (w : World) :
  ((main bgFlag paddingFlag args w).2.2 = Ret tt ->
   exists inFile outFile parsedColor parsedPadding,
     args = [inFile; outFile]
     /\ parseBackgroundColor (default "white" bgFlag) = Ret parsedColor
     /\ parsePadding (default "" paddingFlag) = Ret parsedPadding
     /\ (main bgFlag paddingFlag args w).1
        = (convertImage inFile outFile (Config_ parsedColor parsedPadding) w).1
     /\ (main bgFlag paddingFlag args w).2.1
        = ["Converting: " ++ inFile; "Image converted: " ++ outFile]
     /\ ((detectFormat inFile = "png" /\ detectFormat outFile = "jpeg")
         \/ (detectFormat inFile = "jpeg" /\ detectFormat outFile = "png"))
     /\ files w !! outFile = None
     /\ is_Some (files w !! inFile))
  /\ (length args <> 2%nat
      \/ (forall c, parseBackgroundColor (default "white" bgFlag) <> Ret c)
      \/ (forall p, parsePadding (default "" paddingFlag) <> Ret p) ->
      (main bgFlag paddingFlag args w).1 = w
      /\ (main bgFlag paddingFlag args w).2.2 <> Ret tt).
Proof.
  unfold main. cbv zeta. split.
  - destruct args as [|inFile [|outFile [|extra more]]]; try discriminate.
    destruct (parseBackgroundColor (default "white" bgFlag)) as [c|e|msg]; try discriminate.
    destruct (parsePadding (default "" paddingFlag)) as [p|e|msg]; try discriminate.
    destruct (convertImage inFile outFile (Config_ c p) w) as [w' [[]|e|msg]] eqn:Hrun;
      try discriminate.
    intros _. exists inFile, outFile, c, p.
    assert ((convertImage inFile outFile (Config_ c p) w).2 = Ret tt) as Hok
      by now rewrite Hrun.
    destruct (convertImage_success _ _ _ _ Hok) as (Hpair & Hout & Hin).
    rewrite Hrun. repeat (split; [reflexivity|]). split; [exact Hpair|]. now split.
  - intros Hbad.
    destruct args as [|inFile [|outFile [|extra more]]];
      try (split; [reflexivity|discriminate]).
    destruct Hbad as [Hlen|[Hc|Hp]]; [cbn in Hlen; lia| |].
    + destruct (parseBackgroundColor (default "white" bgFlag)) as [c|e|msg];
        [exfalso; exact (Hc c eq_refl)|split; [reflexivity|discriminate]..].
    + destruct (parseBackgroundColor (default "white" bgFlag)) as [c|e|msg];
        [|split; [reflexivity|discriminate]..].
      destruct (parsePadding (default "" paddingFlag)) as [p|e|msg];
        [exfalso; exact (Hp p eq_refl)|split; [reflexivity|discriminate]..].
Qed.

End Converter.

(** * Concrete runs *)

Example parsePadding_css : parsePadding "5,-10,+5,10" = Ret (Padding.mk 5 (-10) 5 10).
Proof. reflexivity. Qed.

Example parsePadding_blank :
  parsePadding " 5" = Fail (ErrorfW "parse padding" (NumError "Atoi" " 5" ErrSyntax)).
Proof. reflexivity. Qed.

Example Atoi_range :
  Atoi "9223372036854775808" = Fail (NumError "Atoi" "9223372036854775808" ErrRange).
Proof. reflexivity. Qed.

Example Atoi_min : Atoi "-9223372036854775808" = Ret GoInt.minInt.
Proof. reflexivity. Qed.

Example parseHexColor_mixed_case : parseHexColor "#1a2B3c" = Ret (RGBA 26 43 60 0).
Proof. reflexivity. Qed.

Example parseHexColor_underscore :
  parseHexColor "##a-bc d 0f_1x2" = Fail (NumError "ParseInt" "_1" ErrSyntax).
Proof. reflexivity. Qed.

Example parseHexColor_scattered : parseHexColor "##a-bc d 0f-02x" = Ret (RGBA 188 15 2 0).
Proof. reflexivity. Qed.

Example detectFormat_last_element : detectFormat lowerASCII "dir.png/a.JPG" = "jpeg".
Proof. reflexivity. Qed.

Example detectFormat_no_extension : detectFormat lowerASCII "a.png/b" = "unknown".
Proof. reflexivity. Qed.

(** ** The properties at concrete inputs *)

Lemma parsePadding_expansion_witness :
  parsePadding "5,10" = Ret (Padding.mk 5 10 5 10).
Proof.
  apply (proj1 (proj2 (proj2 parsePadding_expansion)) "5,10" "5" "10" 5 10); reflexivity.
Defined.

Lemma parseBackgroundColor_named_witness :
  parseBackgroundColor lowerASCII "Red" = Ret (RGBA 255 0 0 0).
Proof.
  apply (proj1 (proj2 (proj2 (parseBackgroundColor_named lowerASCII "Red")))).
  reflexivity.
Defined.

Lemma parseBackgroundColor_hex_witness :
  parseBackgroundColor lowerASCII "#ff" = Panic "runtime error: index out of range".
Proof.
  apply (parseBackgroundColor_hex lowerASCII "#ff"); try (vm_compute; discriminate).
  - vm_compute. repeat constructor.
  - repeat constructor. exists 255. reflexivity.
Defined.

Lemma convertImage_unsupported_witness :
  convertImage lowerASCII sampleDecode sampleDecode samplePNG sampleJPEG
    "in.png" "out.png" (Config_ White samplePadding) sampleWorld
  = (sampleWorld, Fail (Errorf "unsupported conversion: png to png")).
Proof.
  apply (convertImage_unsupported lowerASCII sampleDecode sampleDecode samplePNG sampleJPEG
           "in.png" "out.png" (Config_ White samplePadding) sampleWorld);
    intros [H1 H2]; vm_compute in H1, H2; discriminate.
Defined.

Lemma convertImage_output_exists_witness :
  (convertImage lowerASCII sampleDecode sampleDecode samplePNG sampleJPEG
     "in.png" "old.jpg" (Config_ White samplePadding) sampleWorld).2
  = Fail (PathError "open" "old.jpg" EEXIST).
Proof.
  assert (files sampleWorld !! "old.jpg" = Some [x00]%byte) as Hout by reflexivity.
  apply (proj1 (proj2 (proj2
           (convertImage_output_exists lowerASCII sampleDecode sampleDecode samplePNG
              sampleJPEG "in.png" "old.jpg" (Config_ White samplePadding) sampleWorld
              [x00]%byte Hout)))
         [x89]%byte twoPixels twoPixelsCanvas); reflexivity.
Defined.

Lemma conversion_leaves_files_open_witness :
  opened (convertPNGToJPEG sampleDecode sampleJPEG
            "bad.png" "out.jpg" (Config_ White samplePadding) sampleWorld).1
  = [File_ 3 "bad.png" false].
Proof.
  apply (proj1 (conversion_leaves_files_open sampleDecode sampleDecode samplePNG sampleJPEG
                  "bad.png" "out.jpg" (Config_ White samplePadding) sampleWorld)
           [] (CodecError "codec" "unexpected EOF")); reflexivity.
Defined.

Lemma canvas_size_witness :
  Dx (RGBARect twoPixelsCanvas) = 3 /\ Dy (RGBARect twoPixelsCanvas) = 2.
Proof.
  destruct (canvas_size White twoPixels samplePadding twoPixelsCanvas eq_refl)
    as (HW & HH & _).
  split.
  - apply HW. vm_compute. split; discriminate.
  - apply HH. vm_compute. split; discriminate.
Defined.

Lemma composite_fill_then_draw_witness :
  RGBAAt twoPixelsCanvas 0 0 = Px 255 255 255 255
  /\ RGBAAt twoPixelsCanvas 1 1 = Px 132 137 142 255.
Proof.
  split.
  - apply (proj1 (proj2 (composite_fill_then_draw White twoPixels samplePadding
                           twoPixelsCanvas 0 0 eq_refl
                           ltac:(vm_compute; repeat split; discriminate) eq_refl))).
    reflexivity.
  - apply (proj2 (proj2 (composite_fill_then_draw White twoPixels samplePadding
                           twoPixelsCanvas 1 1 eq_refl
                           ltac:(vm_compute; repeat split; discriminate) eq_refl))).
    reflexivity.
Defined.

Lemma convertPNGToJPEG_fill_and_quality_witness :
  files (convertPNGToJPEG sampleDecode sampleJPEG
           "in.png" "out.jpg" (Config_ White samplePadding) sampleWorld).1 !! "out.jpg"
  = Some [xff; xd8]%byte
  /\ (convertPNGToJPEG sampleDecode sampleJPEG
        "in.png" "out.jpg" (Config_ White samplePadding) sampleWorld).2 = Ret tt.
Proof.
  assert (files sampleWorld !! "in.png" = Some [x89]%byte) as Hin by reflexivity.
  assert (files sampleWorld !! "out.jpg" = None) as Hout by reflexivity.
  destruct (NewRGBA (canvasRect (Bounds twoPixels) samplePadding)) as [destImg|e|msg] eqn:Hnew;
    [|vm_compute in Hnew; discriminate..].
  destruct (convertPNGToJPEG_fill_and_quality sampleDecode sampleJPEG
              "in.png" "out.jpg" (Config_ White samplePadding) sampleWorld
              [x89]%byte twoPixels destImg Hin eq_refl Hnew Hout)
    as (_ & _ & Hrun & _).
  destruct Hrun as [Hfiles Hres]; [reflexivity|reflexivity|].
  split; [|exact Hres].
  rewrite Hfiles. apply lookup_insert_eq.
Defined.

Lemma convertJPEGToPNG_ignores_bgColor_witness :
  convertImage lowerASCII sampleDecode sampleDecode samplePNG sampleJPEG
    "in.jpg" "out.png" (Config_ Black samplePadding) sampleWorld
  = convertImage lowerASCII sampleDecode sampleDecode samplePNG sampleJPEG
      "in.jpg" "out.png" (Config_ (RGBA 255 0 0 0) samplePadding) sampleWorld.
Proof.
  apply (proj1 (proj2 (convertJPEGToPNG_ignores_bgColor lowerASCII sampleDecode sampleDecode
                         samplePNG sampleJPEG "in.jpg" "out.png" samplePadding sampleWorld)));
    reflexivity.
Defined.

(** ** The background "red", from the flag to the canvas *)

(** C3.  With [-bg red] the conversion from PNG to JPEG runs to its end,
    but the canvas is not filled with an opaque colour: the parser
    returns [color.RGBA{R: 255}], with [A] at 0, the fill step stores
    (255, 0, 0, 0) at every point, and a border pixel of the canvas that
    goes to the encoder still has alpha 0. *)
Lemma fill_of_red_not_opaque :
  parseBackgroundColor lowerASCII "red" = Ret (RGBA 255 0 0 0)
  /\ (main lowerASCII sampleDecode sampleDecode samplePNG sampleJPEG
        (Some "red") (Some "1,0,0,1") ["in.png"; "out.jpg"] sampleWorld).2
     = (["Converting: in.png"; "Image converted: out.jpg"], Ret tt)
  /\ parsePadding "1,0,0,1" = Ret samplePadding
  /\ exists destImg canvas,
       NewRGBA (canvasRect (Bounds twoPixels) samplePadding) = Ret destImg
       /\ Forall (fun p => p = Px 255 0 0 0)
            (Pix (fillCanvas destImg (canvasRect (Bounds twoPixels) samplePadding)
                    (RGBA 255 0 0 0) twoPixels))
       /\ composite (RGBA 255 0 0 0) twoPixels samplePadding = Ret canvas
       /\ Point_In (Pt 0 0)
            (Rectangle_Add (Bounds twoPixels)
               (Pt (Padding.left samplePadding) (Padding.top samplePadding))) = false
       /\ RGBAAt canvas 0 0 = Px 255 0 0 0
       /\ pxA (RGBAAt canvas 0 0) <> 255.
Proof.
  split; [reflexivity|]. split; [reflexivity|]. split; [reflexivity|].
  eexists. eexists. split; [reflexivity|]. split; [vm_compute; repeat constructor|].
  split; [reflexivity|]. split; [reflexivity|]. split; [reflexivity|].
  vm_compute. discriminate.
Qed.

(** ** Where the specification, as written, does not hold *)

(** C4: with a padding of a billion pixels to the right of a source of
    one pixel, the canvas is a billion and one pixels wide; the fill ends
    where the uniform image ends, so the last pixel, outside the source
    rectangle, is not white but zero. *)
Lemma fill_misses_far_pixel :
  exists canvas,
    composite White onePixel widePadding = Ret canvas
    /\ Point_In (Pt 1000000000 0) (RGBARect canvas) = true
    /\ Point_In (Pt 1000000000 0)
         (Rectangle_Add (Bounds onePixel)
            (Pt (Padding.left widePadding) (Padding.top widePadding))) = false
    /\ RGBAAt canvas 1000000000 0 = Px 0 0 0 0
    /\ fillPixel White = Px 255 255 255 255.
Proof.
  destruct (composite_allocates White onePixel widePadding) as [canvas Hc];
    [vm_compute; discriminate|].
  exists canvas. split; [exact Hc|].
  destruct (composite_spec White onePixel widePadding canvas Hc)
    as (_ & _ & Hr & _ & _ & Hat).
  rewrite Hr, (Hat 1000000000 0). vm_compute. repeat split.
Qed.

(** C6: a source two pixels wide with a left padding of -5 has the sum
    -3, and a canvas three pixels wide, from -3 to 0. *)
Lemma canvas_of_negative_sum :
  exists canvas,
    composite White twoPixels (Padding.mk 0 0 0 (-5)) = Ret canvas
    /\ Dx (Bounds twoPixels) + Padding.left (Padding.mk 0 0 0 (-5))
       + Padding.right (Padding.mk 0 0 0 (-5)) = -3
    /\ Dx (RGBARect canvas) = 3
    /\ RGBARect canvas = Rectangle_ (Pt (-3) 0) (Pt 0 1).
Proof.
  eexists. split; [reflexivity|]. repeat split.
Qed.

(** C9: the output exists, and the conversion fails with another error
    than the one of the exclusive-create open: the decoder's when the
    input is not an image, the one of opening the input when the input is
    missing, and "unsupported conversion" when the formats are the same. *)
Lemma existing_output_other_errors :
  files sampleWorld !! "old.jpg" = Some [x00]%byte
  /\ (convertImage lowerASCII sampleDecode sampleDecode samplePNG sampleJPEG
        "bad.png" "old.jpg" (Config_ White samplePadding) sampleWorld).2
     = Fail (CodecError "codec" "unexpected EOF")
  /\ (convertImage lowerASCII sampleDecode sampleDecode samplePNG sampleJPEG
        "missing.png" "old.jpg" (Config_ White samplePadding) sampleWorld).2
     = Fail (PathError "open" "missing.png" ENOENT)
  /\ (convertImage lowerASCII sampleDecode sampleDecode samplePNG sampleJPEG
        "in.jpg" "old.jpg" (Config_ White samplePadding) sampleWorld).2
     = Fail (Errorf "unsupported conversion: jpeg to jpeg")
  /\ (convertImage lowerASCII sampleDecode sampleDecode samplePNG sampleJPEG
        "bad.png" "old.jpg" (Config_ White samplePadding) sampleWorld).2
     <> Fail (PathError "open" "old.jpg" EEXIST).
Proof.
  repeat split; try reflexivity. vm_compute. discriminate.
Qed.

(** ** The further properties at concrete inputs *)

Lemma parsePadding_never_panics_witness : paddingInRange (Padding.mk 5 10 5 10).
Proof. apply (proj2 (parsePadding_never_panics "5,10")). reflexivity. Defined.

Lemma parsePadding_error_names_edge_witness :
  parsePadding "5,x,7,y"
  = Fail (ErrorfW "parse right padding" (NumError "Atoi" "x" ErrSyntax)).
Proof.
  apply (proj1 (proj2 (proj2 (proj2 (proj2 (parsePadding_error_names_edge "5,x,7,y")))))
           "5" "x" "7" "y" 5); reflexivity.
Defined.

Lemma parseHexColor_RRGGBB_witness :
  parseHexColor "1a2B3c" = Ret (RGBA 26 43 60 0)
  /\ parseHexColor "#1a2B3c" = Ret (RGBA 26 43 60 0).
Proof.
  apply (parseHexColor_RRGGBB "1" "a" "2" "B" "3" "c" 1 10 2 11 3 12); reflexivity.
Defined.

Lemma detectFormat_extension_witness :
  detectFormat lowerASCII "shots/photo.final.PNG" = "png".
Proof.
  apply (proj1 (detectFormat_extension lowerASCII "shots/photo.final" "PNG")); reflexivity.
Defined.

Lemma convertImage_touches_only_output_witness :
  files (convertImage lowerASCII sampleDecode sampleDecode samplePNG sampleJPEG
           "in.png" "out.jpg" (Config_ White samplePadding) sampleWorld).1 !! "old.jpg"
  = Some [x00]%byte.
Proof.
  rewrite (proj1 (convertImage_touches_only_output lowerASCII sampleDecode sampleDecode
                    samplePNG sampleJPEG "in.png" "out.jpg" (Config_ White samplePadding)
                    sampleWorld) "old.jpg"); [reflexivity|discriminate].
Defined.

Lemma convertImage_missing_input_witness :
  (convertImage lowerASCII sampleDecode sampleDecode samplePNG sampleJPEG
     "missing.png" "out.jpg" (Config_ White samplePadding) sampleWorld).2
  = Fail (PathError "open" "missing.png" ENOENT).
Proof.
  apply (convertImage_missing_input lowerASCII sampleDecode sampleDecode samplePNG sampleJPEG
           "missing.png" "out.jpg" (Config_ White samplePadding) sampleWorld);
    [reflexivity|left; split; reflexivity].
Defined.

Lemma canvas_panic_and_output_file_witness :
  files (convertJPEGToPNG sampleDecode samplePNG
           "in.jpg" "out.png" (Config_ White hugePadding) sampleWorld).1 !! "out.png"
  = Some []
  /\ files (convertPNGToJPEG sampleDecode sampleJPEG
              "in.png" "out.jpg" (Config_ White hugePadding) sampleWorld).1 !! "out.jpg"
     = None.
Proof.
  split.
  - rewrite (proj2 (proj2 (canvas_panic_and_output_file sampleDecode sampleDecode samplePNG
                             sampleJPEG "in.jpg" "out.png" (Config_ White hugePadding)
                             sampleWorld [xff]%byte twoPixels eq_refl eq_refl eq_refl)
                      eq_refl)).
    apply lookup_insert_eq.
  - rewrite (proj2 (proj1 (canvas_panic_and_output_file sampleDecode sampleDecode samplePNG
                             sampleJPEG "in.png" "out.jpg" (Config_ White hugePadding)
                             sampleWorld [x89]%byte twoPixels eq_refl eq_refl eq_refl)
                      eq_refl)).
    reflexivity.
Defined.

Lemma convertJPEGToPNG_writes_witness :
  files (convertJPEGToPNG sampleDecode samplePNG
           "in.jpg" "out.png" (Config_ White samplePadding) sampleWorld).1 !! "out.png"
  = Some [x89; x50]%byte.
Proof.
  rewrite (proj1 (convertJPEGToPNG_writes sampleDecode samplePNG
                    "in.jpg" "out.png" (Config_ White samplePadding) sampleWorld
                    [xff]%byte twoPixels twoPixelsOnTransparent
                    eq_refl eq_refl eq_refl eq_refl)).
  apply lookup_insert_eq.
Defined.

Lemma opaque_source_replaces_fill_witness :
  RGBAAt twoPixelsCanvas 2 1 = Px 1 2 3 255.
Proof.
  apply (opaque_source_replaces_fill White twoPixels samplePadding twoPixelsCanvas 2 1);
    reflexivity.
Defined.

Lemma transparent_canvas_is_source_witness :
  RGBAAt twoPixelsOnTransparent 1 1 = Px 5 10 15 128
  /\ RGBAAt twoPixelsOnTransparent 0 0 = Px 0 0 0 0.
Proof.
  split.
  - apply (transparent_canvas_is_source twoPixels samplePadding twoPixelsOnTransparent 1 1).
    reflexivity.
  - apply (transparent_canvas_is_source twoPixels samplePadding twoPixelsOnTransparent 0 0).
    reflexivity.
Defined.

Lemma main_outcomes_witness :
  (main lowerASCII sampleDecode sampleDecode samplePNG sampleJPEG
     (Some "#12") None ["in.png"; "out.jpg"] sampleWorld).1 = sampleWorld.
Proof.
  apply (proj2 (main_outcomes lowerASCII sampleDecode sampleDecode samplePNG sampleJPEG
                  (Some "#12") None ["in.png"; "out.jpg"] sampleWorld)).
  right. left. intros c. discriminate.
Defined.

Example main_converts :
  (main lowerASCII sampleDecode sampleDecode samplePNG sampleJPEG
     None (Some "1,2") ["in.png"; "out.jpg"] sampleWorld).2
  = (["Converting: in.png"; "Image converted: out.jpg"], Ret tt).
Proof. reflexivity. Qed.
